(** * Piff: the DECam wavefront PSF (joint-mode calibration), the iterative
    calibration loop and the interpolator contracts

    A shallow embedding of [piff/des/decam_wavefront_psf.py]
    (class [DECamWavefrontPSF]), of the calibration loop [iterate] of
    [tests/test_gp_interp.py], and of the interpolator operations the tests
    [tests/test_knn_interp.py] and [tests/test_gp_interp.py] call.

    Python floats are IEEE binary64 numbers; they are modelled by Rocq's
    primitive floats, which are the same numbers with the same rounding.  The
    code is written once over an arithmetic interface [PyNum], and read at two
    instances: [binary64] (what the program runs on) and [exact] (rationals
    extended with a not-a-number value), which serves to separate what holds
    of the algorithm from what rounding does to it. *)

From Stdlib Require Import ZArith Floats QArith Qcanon Permutation.
From stdpp Require Import base option list gmap strings.

Close Scope Qc_scope.
Close Scope Q_scope.
Local Open Scope Z_scope.
Local Open Scope string_scope.

(** ** The arithmetic of Python floats *)

Class PyNum (F : Type) := {
  fzero : F;                    (* 0.0 *)
  fone : F;                     (* 1.0 *)
  fnan : F;                     (* np.nan *)
  fadd : F -> F -> F;
  fsub : F -> F -> F;
  fmul : F -> F -> F;
  fdiv : F -> F -> F;
  fabs : F -> F;
  feqb : F -> F -> bool;        (* Python [==]: False as soon as one side is NaN *)
  fltb : F -> F -> bool;        (* Python [<] *)
  of_Z : Z -> F;                (* float(n) for a Python int n *)
  feqb_nan : feqb fnan fnan = false;
  feqb_refl : forall v, v <> fnan -> feqb v v = true;
  fltb_asym : forall a b, fltb a b = true -> fltb b a = false
}.

(** Two facts of IEEE comparison, from the specification of the primitive
    floats: only NaN differs from itself, and [<] is asymmetric. *)
Lemma SFcompare_refl x : x <> S754_nan -> SFcompare x x = Some Eq.
Proof.
  destruct x as [s|s| |s m e]; simpl; try congruence; intros _.
  - destruct s; reflexivity.
  - rewrite Z.compare_refl, Pos.compare_cont_refl. destruct s; reflexivity.
Qed.

Lemma float_eqb_refl (v : float) : v <> nan -> PrimFloat.eqb v v = true.
Proof.
  intros Hv. rewrite FloatAxioms.eqb_spec. unfold SFeqb.
  rewrite SFcompare_refl; [reflexivity|].
  intros Hn. apply Hv. rewrite <- (SF2Prim_Prim2SF v), Hn. reflexivity.
Qed.

Lemma SFcompare_Lt_swap x y : SFcompare x y = Some Lt -> SFcompare y x = Some Gt.
Proof.
  destruct x as [s1|s1| |s1 m1 e1], y as [s2|s2| |s2 m2 e2]; simpl;
    try discriminate; try (destruct s1; discriminate || reflexivity);
    try (destruct s2; discriminate || reflexivity);
    try (destruct s1, s2; discriminate || reflexivity).
  destruct s1, s2; try discriminate; try reflexivity;
    rewrite (Z.compare_antisym e1 e2);
    destruct (e1 ?= e2)%Z eqn:He; simpl; try discriminate; try reflexivity;
    replace (Pos.compare_cont Eq m2 m1) with (CompOpp (Pos.compare_cont Eq m1 m2))
      by (rewrite Pos.compare_cont_antisym; reflexivity);
    destruct (Pos.compare_cont Eq m1 m2); simpl; try discriminate; reflexivity.
Qed.

Lemma float_ltb_asym (a b : float) : PrimFloat.ltb a b = true -> PrimFloat.ltb b a = false.
Proof.
  rewrite !FloatAxioms.ltb_spec. unfold SFltb.
  destruct (SFcompare (Prim2SF a) (Prim2SF b)) as [[]|] eqn:E; try discriminate.
  intros _. rewrite (SFcompare_Lt_swap _ _ E). reflexivity.
Qed.

(** IEEE binary64, as CPython and numpy compute. [of_Z] rounds an integer to
    the nearest float, ties to even. *)
#[export] Instance binary64 : PyNum float := {|
  fzero := 0%float;
  fone := 1%float;
  fnan := nan;
  fadd := PrimFloat.add;
  fsub := PrimFloat.sub;
  fmul := PrimFloat.mul;
  fdiv := PrimFloat.div;
  fabs := PrimFloat.abs;
  feqb := PrimFloat.eqb;
  fltb := PrimFloat.ltb;
  of_Z := fun z => SF2Prim (binary_normalize prec emax z 0 false);
  feqb_nan := eq_refl;
  feqb_refl := float_eqb_refl;
  fltb_asym := float_ltb_asym
|}.

(** Exact arithmetic: the rationals with one extra value [None] that behaves
    as NaN does (it propagates through every operation and is not equal to
    itself); a division by zero gives it. *)
Definition xlift2 (f : Qc -> Qc -> Qc) (a b : option Qc) : option Qc :=
  match a, b with
  | Some x, Some y => Some (f x y)
  | _, _ => None
  end.

Definition xdiv (a b : option Qc) : option Qc :=
  match a, b with
  | Some x, Some y => if Qc_eq_dec y (Q2Qc 0) then None else Some (Qcdiv x y)
  | _, _ => None
  end.

Definition xabs (a : option Qc) : option Qc :=
  match a with
  | Some x => Some (if Qclt_le_dec x (Q2Qc 0) then Qcopp x else x)
  | None => None
  end.

Definition xeqb (a b : option Qc) : bool :=
  match a, b with
  | Some x, Some y => if Qc_eq_dec x y then true else false
  | _, _ => false
  end.

Definition xltb (a b : option Qc) : bool :=
  match a, b with
  | Some x, Some y => if Qclt_le_dec x y then true else false
  | _, _ => false
  end.

Lemma xeqb_refl (v : option Qc) : v <> None -> xeqb v v = true.
Proof.
  destruct v as [x|]; [intros _|congruence].
  simpl. destruct (Qc_eq_dec x x); congruence.
Qed.

Lemma xltb_asym (a b : option Qc) : xltb a b = true -> xltb b a = false.
Proof.
  destruct a as [x|], b as [y|]; simpl; try discriminate.
  destruct (Qclt_le_dec x y) as [Hxy|]; [intros _|discriminate].
  destruct (Qclt_le_dec y x) as [Hyx|]; [|reflexivity].
  exfalso. exact (Qclt_not_le _ _ Hxy (Qclt_le_weak _ _ Hyx)).
Qed.

#[export] Instance exact : PyNum (option Qc) := {|
  fzero := Some (Q2Qc 0);
  fone := Some (Q2Qc 1);
  fnan := None;
  fadd := xlift2 Qcplus;
  fsub := xlift2 Qcminus;
  fmul := xlift2 Qcmult;
  fdiv := xdiv;
  fabs := xabs;
  feqb := xeqb;
  fltb := xltb;
  of_Z := fun z => Some (Q2Qc (inject_Z z));
  feqb_nan := eq_refl;
  feqb_refl := xeqb_refl;
  fltb_asym := xltb_asym
|}.

(** ** Python exceptions *)

Inductive exn :=
| ValueError | TypeError | AttributeError | ZeroDivisionError
| ConfigurationError | InsufficientData | SerializationError.

Inductive result (A : Type) :=
| Ok (a : A)
| Raise (e : exn).
Arguments Ok {A} a.
Arguments Raise {A} e.

#[export] Instance result_ret : MRet result := fun A a => Ok a.
#[export] Instance result_bind : MBind result := fun A B f m =>
  match m with
  | Ok a => f a
  | Raise e => Raise e
  end.

(** ** numpy on lists *)

Section Numpy.
Context {F : Type} {num : PyNum F}.

(** A decimal literal [n/d], rounded once: [dec 1 10] is Python's [0.1]. *)
Definition dec (n d : Z) : F := fdiv (of_Z n) (of_Z d).

(** [np.sum] and [ndarray.sum] of a contiguous array of floats, all axes
    at once: numpy's add-reduction hands the whole array, in storage order,
    to its pairwise summation (pairwise_sum in numpy's umath loops) and adds
    the result to the identity 0.

    Below 8 elements the elements are added one after the other to a
    running sum that starts at 0. *)
Definition running_sum (a : list F) : F := fold_left fadd a fzero.

(** From 8 to 128 elements: eight running sums [r[0..7]] start as the first
    eight elements, and each full row of eight elements that follows is
    added to them, lane by lane. [lanes k r a] makes [k] such rounds
    and returns the eight sums with the elements that are left. *)
Fixpoint lanes (k : nat) (r a : list F) : list F * list F :=
  match k with
  | O => (r, a)
  | S k' => lanes k' (zip_with fadd r (take 8 a)) (drop 8 a)
  end.

(** [((r[0] + r[1]) + (r[2] + r[3])) + ((r[4] + r[5]) + (r[6] + r[7]))] *)
Definition add_lanes (r : list F) : F :=
  match r with
  | [r0; r1; r2; r3; r4; r5; r6; r7] =>
      fadd (fadd (fadd r0 r1) (fadd r2 r3)) (fadd (fadd r4 r5) (fadd r6 r7))
  | _ => fnan
  end.

(** The block of at most 128 elements: the eight lanes over the
    [n / 8 - 1] full rows after the first, their sum, and then the
    [n mod 8] elements that are left, one after the other. *)
Definition block_sum (a : list F) : F :=
  let p := lanes (length a / 8 - 1) (take 8 a) (drop 8 a) in
  fold_left fadd p.2 (add_lanes p.1).

(** Above 128 elements the array is cut in two, the first part of
    [n / 2] elements rounded down to a multiple of 8, and the sums of the
    two parts are added. [depth] bounds the number of cuts; [np_sum] gives
    more than are ever made. *)
Fixpoint pairwise_sum (depth : nat) (a : list F) : F :=
  let n := length a in
  if decide (n < 8)%nat then running_sum a
  else if decide (n <= 128)%nat then block_sum a
  else
    match depth with
    | O => fnan
    | S depth' =>
        let n2 := (n / 2 - (n / 2) mod 8)%nat in
        fadd (pairwise_sum depth' (take n2 a)) (pairwise_sum depth' (drop n2 a))
    end.

Definition np_sum (l : list F) : F := fadd fzero (pairwise_sum (length l) l).

(** The elements of a list that is not empty, added one after the other
    from the first on; the proofs compare the sums above with it. *)
Definition chain_sum (l : list F) : F :=
  match l with
  | [] => fnan
  | x :: l' => fold_left fadd l' x
  end.

(** [np.square] *)
Definition np_square (x : F) : F := fmul x x.

(** The shape of a two-dimensional array held as a list of rows. *)
Definition shape {A : Type} (m : list (list A)) : list nat := map length m.

(** An elementwise binary operation on two 2-D arrays of the same shape.
    Only this aligned case is modelled: on other shapes numpy raises
    ValueError, unless an axis of length one lets it broadcast. *)
Definition np_zip2 {A B C : Type} (f : A -> B -> C)
    (x : list (list A)) (y : list (list B)) : result (list (list C)) :=
  if decide (shape x = shape y) then Ok (zip_with (zip_with f) x y)
  else Raise ValueError.

(** [np.where(cond, x, y)] on three arrays of one shape. *)
Definition np_where (cond : list (list bool)) (x y : list (list F))
    : result (list (list F)) :=
  cx ← np_zip2 pair cond x;
  np_zip2 (fun (c : bool * F) (b : F) => if c.1 then c.2 else b) cx y.

(** [a == a], elementwise *)
Definition np_eq_self (x : list (list F)) : list (list bool) :=
  map (map (fun v => feqb v v)) x.

(** [w * m] for a vector [w] and a 2-D array [m] whose rows have the length
    of [w]: numpy repeats [w] along the rows. An array without rows is
    one-dimensional of length 0 for numpy and does not align with [w]. As for
    [np_zip2], the aligned case only is modelled: a vector or rows of length
    one, which numpy would repeat, are taken as misaligned. *)
Definition np_mul_rows (w : list F) (m : list (list F)) : result (list (list F)) :=
  match m with
  | [] => Raise ValueError
  | _ => if decide (Forall (fun r => length r = length w) m)
         then Ok (map (zip_with fmul w) m)
         else Raise ValueError
  end.

(** [m.size] *)
Definition np_size {A : Type} (m : list (list A)) : Z :=
  Z.of_nat (length (concat m)).
End Numpy.

(** ** Python values held in the keyword dictionaries *)

Inductive pyval (F : Type) :=
| PyNone
| PyBool (b : bool)
| PyInt (z : Z)
| PyFloat (f : F)
| PyPair (lo hi : pyval F).            (* a 2-tuple, as the [limit_*] entries are *)
Arguments PyNone {F}.
Arguments PyBool {F} b.
Arguments PyInt {F} z.
Arguments PyFloat {F} f.
Arguments PyPair {F} lo hi.

(** [d1.update(d2)]: the entries of [d2] win. *)
Definition dict_update {V : Type} (d1 d2 : gmap string V) : gmap string V := d2 ∪ d1.

(** A dict display [{k1: v1, k2: v2, ...}]: the items are stored from left to
    right, so a key written twice keeps the value written last. *)
Definition dict_of_literal {V : Type} (items : list (string * V)) : gmap string V :=
  fold_left (fun d kv => <[kv.1 := kv.2]> d) items ∅.

(** ** The state of a [DECamWavefrontPSF] and of the objects it owns *)

Section State.
Context {F : Type} {num : PyNum F}.

(** [self.model], an [Optical]: the three scalars the class writes. *)
Record Optical := {
  kolmogorov_kwargs : gmap string F;
  g1 : F;
  g2 : F
}.

(** [self.interp], a [DECamWavefront]: the misalignment array (8 Zernike rows
    z04..z11, columns d, x, y). *)
Record DECamWavefront := {
  misalignment : list (list F)
}.

(** What a [Minuit] object holds after [migrad]: the calls it made to the
    objective with the values returned, and whether the search converged
    within its call budget. *)
Record MinuitRun := {
  calls : list (list F * F);
  migrad_ok : bool;
  values : gmap string F;
  fitarg : gmap string (pyval F)
}.

Inductive log_record := Info (msg : string) (n : nat).

Record DECamWavefrontPSF {Star Wcs Pointing : Type} := {
  interp : DECamWavefront;
  model : Optical;
  weights : list F;
  extra_interp_properties : list string;
  kwargs_minuit : gmap string (pyval F);      (* self.kwargs['minuit'] *)
  minuit_kwargs : gmap string (pyval F);
  (* attributes that exist only once [fit] has set them *)
  stars : option (list Star);
  wcs : option Wcs;
  pointing : option Pointing;
  _stars : option (list Star);
  _shapes : option (list (list F));
  _minuit : option MinuitRun;
  _fitarg : option (gmap string (pyval F))
}.
End State.
Arguments Optical F : clear implicits.
Arguments DECamWavefront F : clear implicits.
Arguments MinuitRun F : clear implicits.
Arguments DECamWavefrontPSF F Star Wcs Pointing : clear implicits.

(** The parameters of [update_psf_params] and [_fit_func], in signature order. *)
Definition param_names : list string :=
  [ "r0"; "g1"; "g2";
    "z04d"; "z04x"; "z04y";
    "z05d"; "z05x"; "z05y";
    "z06d"; "z06x"; "z06y";
    "z07d"; "z07x"; "z07y";
    "z08d"; "z08x"; "z08y";
    "z09d"; "z09x"; "z09y";
    "z10d"; "z10x"; "z10y";
    "z11d"; "z11x"; "z11y" ].

(** The collaborators of the class, which the repository defines elsewhere:
    the focal-plane geometry, the wavefront interpolator, the optical model
    and the Gaussian shape measurement. Each returns a new star and leaves the
    PSF object alone. The descriptor that [Gaussian.fit] attaches has a fixed
    length, [descriptor_dim]. *)
Class Collaborators (F Star : Type) := {
  pixel_to_focal : Star -> Star;                       (* DECamInfo.pixel_to_focal *)
  interpolate : DECamWavefront F -> Star -> Star;      (* DECamWavefront.interpolate *)
  draw : Optical F -> Star -> Star;                    (* Optical.draw *)
  comparer_fit : Star -> Star;                         (* Gaussian.fit *)
  fit_params : Star -> list F;                         (* star.fit.params *)
  descriptor_dim : nat;
  fit_params_length : forall s, length (fit_params (comparer_fit s)) = descriptor_dim
}.

(** [iminuit.Minuit], the bounded search: given its keyword configuration and
    the objective values seen so far, it either asks for the objective at one
    more point or stops; [values] and [fitarg] are read off afterwards. It
    calls the objective with one value for each parameter of its signature. *)
Class Minuit (F : Type) := {
  migrad_next : gmap string (pyval F) -> list (list F * F) -> option (list F);
  minuit_values : gmap string (pyval F) -> list (list F * F) -> gmap string F;
  minuit_fitarg : gmap string (pyval F) -> list (list F * F) -> gmap string (pyval F);
  migrad_next_arity : forall kw seen xs,
    migrad_next kw seen = Some xs -> length xs = length param_names
}.

(** ** The class [DECamWavefrontPSF] *)

Section PSF.
Context {F : Type} {num : PyNum F} {Star Wcs Pointing : Type}.
Context {col : Collaborators F Star} {opt : Minuit F}.

Abbreviation PSF := (DECamWavefrontPSF F Star Wcs Pointing).

(** Attribute assignments [self.x = v]. *)
Definition set_interp (self : PSF) (v : DECamWavefront F) : PSF :=
  {| interp := v; model := model self; weights := weights self;
     extra_interp_properties := extra_interp_properties self;
     kwargs_minuit := kwargs_minuit self; minuit_kwargs := minuit_kwargs self;
     stars := stars self; wcs := wcs self; pointing := pointing self;
     _stars := _stars self; _shapes := _shapes self;
     _minuit := _minuit self; _fitarg := _fitarg self |}.

Definition set_model (self : PSF) (v : Optical F) : PSF :=
  {| interp := interp self; model := v; weights := weights self;
     extra_interp_properties := extra_interp_properties self;
     kwargs_minuit := kwargs_minuit self; minuit_kwargs := minuit_kwargs self;
     stars := stars self; wcs := wcs self; pointing := pointing self;
     _stars := _stars self; _shapes := _shapes self;
     _minuit := _minuit self; _fitarg := _fitarg self |}.

Definition set_kwargs_minuit (self : PSF) (v : gmap string (pyval F)) : PSF :=
  {| interp := interp self; model := model self; weights := weights self;
     extra_interp_properties := extra_interp_properties self;
     kwargs_minuit := v; minuit_kwargs := minuit_kwargs self;
     stars := stars self; wcs := wcs self; pointing := pointing self;
     _stars := _stars self; _shapes := _shapes self;
     _minuit := _minuit self; _fitarg := _fitarg self |}.

(** [self.stars = stars; self.wcs = wcs; self.pointing = pointing] *)
Definition set_inputs (self : PSF) (s : list Star) (w : Wcs) (p : Pointing) : PSF :=
  {| interp := interp self; model := model self; weights := weights self;
     extra_interp_properties := extra_interp_properties self;
     kwargs_minuit := kwargs_minuit self; minuit_kwargs := minuit_kwargs self;
     stars := Some s; wcs := Some w; pointing := Some p;
     _stars := _stars self; _shapes := _shapes self;
     _minuit := _minuit self; _fitarg := _fitarg self |}.

(** [self._stars = s; self._shapes = t] *)
Definition set_targets (self : PSF) (s : list Star) (t : list (list F)) : PSF :=
  {| interp := interp self; model := model self; weights := weights self;
     extra_interp_properties := extra_interp_properties self;
     kwargs_minuit := kwargs_minuit self; minuit_kwargs := minuit_kwargs self;
     stars := stars self; wcs := wcs self; pointing := pointing self;
     _stars := Some s; _shapes := Some t;
     _minuit := _minuit self; _fitarg := _fitarg self |}.

(** [self._minuit = m] *)
Definition set_minuit (self : PSF) (m : MinuitRun F) : PSF :=
  {| interp := interp self; model := model self; weights := weights self;
     extra_interp_properties := extra_interp_properties self;
     kwargs_minuit := kwargs_minuit self; minuit_kwargs := minuit_kwargs self;
     stars := stars self; wcs := wcs self; pointing := pointing self;
     _stars := _stars self; _shapes := _shapes self;
     _minuit := Some m; _fitarg := _fitarg self |}.

(** [self._fitarg = a] *)
Definition set_fitarg (self : PSF) (a : gmap string (pyval F)) : PSF :=
  {| interp := interp self; model := model self; weights := weights self;
     extra_interp_properties := extra_interp_properties self;
     kwargs_minuit := kwargs_minuit self; minuit_kwargs := minuit_kwargs self;
     stars := stars self; wcs := wcs self; pointing := pointing self;
     _stars := _stars self; _shapes := _shapes self;
     _minuit := _minuit self; _fitarg := Some a |}.

(** Reading an attribute that may not have been assigned yet. *)
Definition getattr {A : Type} (a : option A) : result A :=
  match a with
  | Some v => Ok v
  | None => Raise AttributeError
  end.

(** *** [update_psf_params]

    The arguments are held by name; a parameter the caller does not pass
    takes its default, [np.nan]. (The locals [g1_], [g2_] are the source's
    [g1], [g2].) *)
Definition arg (a : gmap string F) (name : string) : F := default fnan (a !! name).

Definition update_psf_params (self : PSF) (a : gmap string F) : result PSF :=
  let r0 := arg a "r0" in
  let g1_ := arg a "g1" in
  let g2_ := arg a "g2" in
  (* update model *)
  let m := model self in
  let m := if feqb r0 r0
           then {| kolmogorov_kwargs := <["r0" := r0]> (kolmogorov_kwargs m);
                   g1 := g1 m; g2 := g2 m |}
           else m in
  let m := if feqb g1_ g1_
           then {| kolmogorov_kwargs := kolmogorov_kwargs m;
                   g1 := g1_; g2 := g2 m |}
           else m in
  let m := if feqb g2_ g2_
           then {| kolmogorov_kwargs := kolmogorov_kwargs m;
                   g1 := g1 m; g2 := g2_ |}
           else m in
  let self := set_model self m in
  (* update the misalignment *)
  let new_misalignment :=
    [ [arg a "z04d"; arg a "z04x"; arg a "z04y"];
      [arg a "z05d"; arg a "z05x"; arg a "z05y"];
      [arg a "z06d"; arg a "z06x"; arg a "z06y"];
      [arg a "z07d"; arg a "z07x"; arg a "z07y"];
      [arg a "z08d"; arg a "z08x"; arg a "z08y"];
      [arg a "z09d"; arg a "z09x"; arg a "z09y"];
      [arg a "z10d"; arg a "z10x"; arg a "z10y"];
      [arg a "z11d"; arg a "z11x"; arg a "z11y"] ] in
  let old_misalignment := misalignment (interp self) in
  new_misalignment ← np_where (np_eq_self new_misalignment) new_misalignment old_misalignment;
  Ok (set_interp self {| misalignment := new_misalignment |}).

(** A call [f(x1, ..., x27)] with positional arguments binds them to the
    parameter names in order; another number of arguments is a TypeError. *)
Definition bind_positional (xs : list F) : result (gmap string F) :=
  if decide (length xs = length param_names)
  then Ok (list_to_map (zip param_names xs))
  else Raise TypeError.

(** The number a Python value stands for where a float is expected. *)
Definition to_num (v : pyval F) : option F :=
  match v with
  | PyFloat f => Some f
  | PyInt z => Some (of_Z z)
  | PyBool b => Some (of_Z (if b then 1 else 0))
  | _ => None
  end.

(** A call that unpacks a dictionary [d] into keyword arguments: the entries
    of [d] named after a parameter are bound to it, the others are collected
    in the catch-all [kwargs], which [update_psf_params] ignores. Only
    numbers are modelled as parameter values. *)
Definition bind_kwargs (d : gmap string (pyval F)) : result (gmap string F) :=
  foldr (fun name acc =>
           a ← acc;
           match d !! name with
           | None => Ok a
           | Some v => match to_num v with
                       | Some x => Ok (<[name := x]> a)
                       | None => Raise TypeError
                       end
           end) (Ok ∅) param_names.

(** *** [drawStar] *)
Definition drawStar (self : PSF) (star : Star) : Star :=
  (* put in the focal coordinates *)
  let star := pixel_to_focal star in
  (* Interpolate parameters to this position/properties *)
  let star := interpolate (interp self) star in
  (* Render the image *)
  draw (model self) star.

(** *** [_fit_func] *)
Definition _fit_func (self : PSF) (xs : list F) : result (F * PSF) :=
  a ← bind_positional xs;
  (* update psf *)
  self ← update_psf_params self a;
  (* get shapes *)
  stars ← getattr (_stars self);
  let shapes := map (fun star => fit_params (comparer_fit (drawStar self star))) stars in
  (* calculate chisq *)
  targets ← getattr (_shapes self);
  d ← np_zip2 fsub shapes targets;
  t ← np_mul_rows (weights self) (map (map np_square) d);
  let chi2 := np_sum (concat t) in
  let dof := np_size shapes in
  Ok (fdiv chi2 (of_Z dof), self).

(** *** [Minuit.migrad(ncall)]

    The search calls the objective at most [ncall] times, each call acting
    on the PSF object. It is converged when it stops of its own accord. *)
Fixpoint migrad (kw : gmap string (pyval F)) (ncall : nat)
    (seen : list (list F * F)) (self : PSF) : result (MinuitRun F * PSF) :=
  match migrad_next kw seen with
  | None =>
      Ok ({| calls := seen; migrad_ok := true;
             values := minuit_values kw seen; fitarg := minuit_fitarg kw seen |}, self)
  | Some xs =>
      match ncall with
      | O =>
          Ok ({| calls := seen; migrad_ok := false;
                 values := minuit_values kw seen; fitarg := minuit_fitarg kw seen |}, self)
      | S n =>
          r ← _fit_func self xs;
          migrad kw n (seen ++ [(xs, r.1)])%list r.2
      end
  end.

(** *** [fit]

    [logger] is the list of records a logger holds, or [None]. The result is
    the value returned (always Python's [None]), the object and the logger. *)
Definition fit (self : PSF) (stars : list Star) (wcs : Wcs) (pointing : Pointing)
    (chisq_threshold : F) (max_iterations : nat) (skip_fit : bool)
    (logger : option (list log_record))
    : result (pyval F * PSF * option (list log_record)) :=
  let logger :=
    match logger with
    | Some l => Some (l ++ [Info "Start fitting DECAMWavefrontPSF using %s stars" (length stars)])%list
    | None => None
    end in
  let self := set_inputs self stars wcs pointing in
  (* get the moments of the stars for comparison *)
  let _stars := map comparer_fit stars in
  let self := set_targets self _stars (map fit_params _stars) in
  (* run the fit and solve! This will update the interior parameters *)
  r ← migrad (minuit_kwargs self) max_iterations [] self;
  let self := set_minuit r.2 r.1 in
  (* these are the best fit parameters *)
  let self := set_fitarg self (fitarg r.1) in
  (* update params to best values *)
  self ← update_psf_params self (values r.1);
  (* save params and errors to the kwargs *)
  let self := set_kwargs_minuit self (dict_update (kwargs_minuit self) (fitarg r.1)) in
  Ok (PyNone, self, logger).
End PSF.

Section Init.
Context {F : Type} {num : PyNum F} {Star Wcs Pointing : Type}.
Context {col : Collaborators F Star} {opt : Minuit F}.

(** *** [__init__]

    The items of the dict display assigned to [self.minuit_kwargs], in the
    order in which they are written. *)
Definition minuit_kwargs_literal : list (string * pyval F) :=
  [
    ("throw_nan", PyBool false);
    ("pedantic", PyBool true);
    ("print_level", PyInt 2);
    ("errordef", PyInt 1);
    ("r0", PyFloat (dec 1 10)); ("fix_r0", PyBool false);
      ("limit_r0", PyPair (PyFloat (dec 8 100)) (PyFloat (dec 25 100)));
      ("error_r0", PyFloat (dec 1 100));
    ("g1", PyInt 0); ("fix_g1", PyBool false);
      ("limit_g1", PyPair (PyFloat (dec (-2) 10)) (PyFloat (dec 2 10)));
      ("error_g1", PyFloat (dec 1 100));
    ("g2", PyInt 0); ("fix_g2", PyBool false);
      ("limit_g2", PyPair (PyFloat (dec (-2) 10)) (PyFloat (dec 2 10)));
      ("error_g2", PyFloat (dec 1 100));
    ("z04d", PyInt 0); ("fix_z04d", PyBool false);
      ("limit_z04d", PyPair (PyInt (-2)) (PyInt 2)); ("error_z04d", PyFloat (dec 1 100));
    ("z04x", PyInt 0); ("fix_z04x", PyBool false);
      ("limit_z04x", PyPair (PyInt (-2)) (PyInt 2)); ("error_z04x", PyFloat (dec 1 10000));
    ("z04y", PyInt 0); ("fix_z04y", PyBool false);
      ("limit_z04y", PyPair (PyInt (-2)) (PyInt 2)); ("error_z04x", PyFloat (dec 1 10000));
    ("z05d", PyInt 0); ("fix_z05d", PyBool false);
      ("limit_z05d", PyPair (PyInt (-2)) (PyInt 2)); ("error_z05d", PyFloat (dec 1 100));
    ("z05x", PyInt 0); ("fix_z05x", PyBool false);
      ("limit_z05x", PyPair (PyInt (-2)) (PyInt 2)); ("error_z05x", PyFloat (dec 1 10000));
    ("z05y", PyInt 0); ("fix_z05y", PyBool false);
      ("limit_z05y", PyPair (PyInt (-2)) (PyInt 2)); ("error_z05x", PyFloat (dec 1 10000));
    ("z06d", PyInt 0); ("fix_z06d", PyBool false);
      ("limit_z06d", PyPair (PyInt (-2)) (PyInt 2)); ("error_z06d", PyFloat (dec 1 100));
    ("z06x", PyInt 0); ("fix_z06x", PyBool false);
      ("limit_z06x", PyPair (PyInt (-2)) (PyInt 2)); ("error_z06x", PyFloat (dec 1 10000));
    ("z06y", PyInt 0); ("fix_z06y", PyBool false);
      ("limit_z06y", PyPair (PyInt (-2)) (PyInt 2)); ("error_z06x", PyFloat (dec 1 10000));
    ("z07d", PyInt 0); ("fix_z07d", PyBool false);
      ("limit_z07d", PyPair (PyInt (-2)) (PyInt 2)); ("error_z07d", PyFloat (dec 1 100));
    ("z07x", PyInt 0); ("fix_z07x", PyBool false);
      ("limit_z07x", PyPair (PyInt (-2)) (PyInt 2)); ("error_z07x", PyFloat (dec 1 10000));
    ("z07y", PyInt 0); ("fix_z07y", PyBool false);
      ("limit_z07y", PyPair (PyInt (-2)) (PyInt 2)); ("error_z07x", PyFloat (dec 1 10000));
    ("z08d", PyInt 0); ("fix_z08d", PyBool false);
      ("limit_z08d", PyPair (PyInt (-2)) (PyInt 2)); ("error_z08d", PyFloat (dec 1 100));
    ("z08x", PyInt 0); ("fix_z08x", PyBool false);
      ("limit_z08x", PyPair (PyInt (-2)) (PyInt 2)); ("error_z08x", PyFloat (dec 1 10000));
    ("z08y", PyInt 0); ("fix_z08y", PyBool false);
      ("limit_z08y", PyPair (PyInt (-2)) (PyInt 2)); ("error_z08x", PyFloat (dec 1 10000));
    ("z09d", PyInt 0); ("fix_z09d", PyBool false);
      ("limit_z09d", PyPair (PyInt (-2)) (PyInt 2)); ("error_z09d", PyFloat (dec 1 100));
    ("z09x", PyInt 0); ("fix_z09x", PyBool false);
      ("limit_z09x", PyPair (PyInt (-2)) (PyInt 2)); ("error_z09x", PyFloat (dec 1 10000));
    ("z09y", PyInt 0); ("fix_z09y", PyBool false);
      ("limit_z09y", PyPair (PyInt (-2)) (PyInt 2)); ("error_z09x", PyFloat (dec 1 10000));
    ("z10d", PyInt 0); ("fix_z10d", PyBool false);
      ("limit_z10d", PyPair (PyInt (-2)) (PyInt 2)); ("error_z10d", PyFloat (dec 1 100));
    ("z10x", PyInt 0); ("fix_z10x", PyBool false);
      ("limit_z10x", PyPair (PyInt (-2)) (PyInt 2)); ("error_z10x", PyFloat (dec 1 10000));
    ("z10y", PyInt 0); ("fix_z10y", PyBool false);
      ("limit_z10y", PyPair (PyInt (-2)) (PyInt 2)); ("error_z10x", PyFloat (dec 1 10000));
    ("z11d", PyInt 0); ("fix_z11d", PyBool false);
      ("limit_z11d", PyPair (PyInt (-2)) (PyInt 2)); ("error_z11d", PyFloat (dec 1 100));
    ("z11x", PyInt 0); ("fix_z11x", PyBool false);
      ("limit_z11x", PyPair (PyInt (-2)) (PyInt 2)); ("error_z11x", PyFloat (dec 1 10000));
    ("z11y", PyInt 0); ("fix_z11y", PyBool false);
      ("limit_z11y", PyPair (PyInt (-2)) (PyInt 2)); ("error_z11x", PyFloat (dec 1 10000))
  ].

(** [interp0] and [model0] are the objects that the constructors
    [DECamWavefront(knn_file_name, knn_extname, ...)] and
    [Optical(template='des', ...)] return; [extra_interp_properties] is
    [None] or a list; [weights0] and [minuit_kwargs0] are the arguments
    [weights] and [minuit_kwargs]. *)
Definition __init__ (interp0 : DECamWavefront F) (model0 : Optical F)
    (extra_interp_properties0 : option (list string))
    (weights0 : list F) (minuit_kwargs0 : gmap string (pyval F))
    : result (DECamWavefrontPSF F Star Wcs Pointing) :=
  let weights := weights0 in
  (* normalize weights *)
  let total := np_sum weights in
  let weights := map (fun w => fdiv w total) weights in
  let extra :=
    match extra_interp_properties0 with
    | None => []
    | Some l => l
    end in
  (* put in the variable names and initial values *)
  let minuit_kwargs := dict_of_literal minuit_kwargs_literal in
  let minuit_kwargs := dict_update minuit_kwargs minuit_kwargs0 in
  let self :=
    {| interp := interp0; model := model0; weights := weights;
       extra_interp_properties := extra;
       kwargs_minuit := minuit_kwargs0; minuit_kwargs := minuit_kwargs;
       stars := None; wcs := None; pointing := None;
       _stars := None; _shapes := None; _minuit := None; _fitarg := None |} in
  a ← bind_kwargs minuit_kwargs;
  update_psf_params self a.
End Init.

(** ** Reading the installed parameters *)

Section Installed.
Context {F : Type} {num : PyNum F} {Star Wcs Pointing : Type}.

(** The place of a misalignment coefficient in the array: row of the Zernike
    term, column of d, x, y. *)
Definition coefficient_index (name : string) : option (nat * nat) :=
  match list_find (fun n => n = name) (drop 3 param_names) with
  | Some (k, _) => Some (k `div` 3, k `mod` 3)%nat
  | None => None
  end.

(** The value currently installed for the parameter [name]. *)
Definition installed (self : DECamWavefrontPSF F Star Wcs Pointing) (name : string)
    : option F :=
  if decide (name = "r0") then kolmogorov_kwargs (model self) !! "r0"
  else if decide (name = "g1") then Some (g1 (model self))
  else if decide (name = "g2") then Some (g2 (model self))
  else match coefficient_index name with
       | Some (i, j) => misalignment (interp self) !! i ≫= fun row => row !! j
       | None => None
       end.

(** The misalignment array is 8 by 3. *)
Definition is_8x3 (m : list (list F)) : Prop := shape m = replicate 8 3%nat.
End Installed.

(** ** The objective

    The value of the objective for the descriptors [shapes] re-measured on
    the rendered model stars and the precomputed [targets], one row per
    star: the sum over all stars of the weights times the squared
    differences, divided by the total number of descriptor entries. *)

Section Objective.
Context {F : Type} {num : PyNum F}.

(** The row of one star, [weights * square(shape - target)]. *)
Definition weighted_residuals (w shape target : list F) : list F :=
  zip_with fmul w (map np_square (zip_with fsub shape target)).

Definition degrees_of_freedom (shapes : list (list F)) : Z :=
  Z.of_nat (sum_list (map length shapes)).

(** The sum is numpy's, over the rows in storage order. *)
Definition objective (w : list F) (shapes targets : list (list F)) : F :=
  fdiv (np_sum (concat (zip_with (weighted_residuals w) shapes targets)))
       (of_Z (degrees_of_freedom shapes)).

(** The same value in the words of the specification: for each star in
    turn, the weighted squared residuals of its re-measured descriptor
    against its precomputed target are accumulated into a running sum, which
    is normalized by the total number of descriptor entries. *)
Definition accumulate (w : list F) (acc : F) (st : list F * list F) : F :=
  fold_left fadd (weighted_residuals w st.1 st.2) acc.

Definition accumulated_objective (w : list F) (shapes targets : list (list F)) : F :=
  fdiv (fold_left (accumulate w) (zip shapes targets) fzero)
       (of_Z (degrees_of_freedom shapes)).
End Objective.

(** The descriptor re-measured on the model star that the PSF renders. *)
Definition remeasure {F Star Wcs Pointing : Type} {num : PyNum F} {col : Collaborators F Star}
    (self : DECamWavefrontPSF F Star Wcs Pointing) (star : Star) : list F :=
  fit_params (comparer_fit (drawStar self star)).

(** The object is ready for [fit]: its misalignment is the 8 by 3 array and its
    weight vector has the length of a descriptor. *)
Definition ready {F Star Wcs Pointing : Type} {num : PyNum F} {col : Collaborators F Star}
    (self : DECamWavefrontPSF F Star Wcs Pointing) : Prop :=
  is_8x3 (misalignment (interp self)) /\ length (weights self) = descriptor_dim.

(** The logger after the opening record of [fit]. *)
Definition opening_log (logger : option (list log_record)) (nstars : nat)
    : option (list log_record) :=
  match logger with
  | Some l => Some (l ++ [Info "Start fitting DECAMWavefrontPSF using %s stars" nstars])%list
  | None => None
  end.

(** What a silent success of [fit] looks like to its caller: no exception, the
    value [None], and nothing logged beyond the opening record. *)
Definition silent_success {F Star Wcs Pointing : Type}
    (res : result (pyval F * DECamWavefrontPSF F Star Wcs Pointing * option (list log_record)))
    (logger : option (list log_record)) (nstars : nat) : Prop :=
  exists self', res = Ok (PyNone, self', opening_log logger nstars).

(** The attributes that [update_psf_params] does not assign. *)
Definition same_frame {F Star Wcs Pointing : Type}
    (self self' : DECamWavefrontPSF F Star Wcs Pointing) : Prop :=
  weights self' = weights self /\
  extra_interp_properties self' = extra_interp_properties self /\
  kwargs_minuit self' = kwargs_minuit self /\
  minuit_kwargs self' = minuit_kwargs self /\
  stars self' = stars self /\ wcs self' = wcs self /\ pointing self' = pointing self /\
  _stars self' = _stars self /\ _shapes self' = _shapes self /\
  _minuit self' = _minuit self /\ _fitarg self' = _fitarg self.

(** A value recorded by the search of [self]: the objective against the
    targets [T], with the weights of [self], measured on the model stars of
    the object with the parameters of the call installed. *)
Definition evaluation_of {F Star Wcs Pointing : Type} {num : PyNum F}
    {col : Collaborators F Star} (self : DECamWavefrontPSF F Star Wcs Pointing)
    (sts : list Star) (T : list (list F)) (c : list F * F) : Prop :=
  exists before after : DECamWavefrontPSF F Star Wcs Pointing,
    update_psf_params before (list_to_map (zip param_names c.1)) = Ok after /\
    c.2 = objective (weights self) (map (remeasure after) sts) T.

(** The object as [fit] prepares it for the search: the observed stars are
    measured, once, and their descriptors kept as the targets. *)
Definition with_targets {F Star Wcs Pointing : Type} {col : Collaborators F Star}
    (self : DECamWavefrontPSF F Star Wcs Pointing) (obs : list Star)
    : DECamWavefrontPSF F Star Wcs Pointing :=
  set_targets self (map comparer_fit obs) (map fit_params (map comparer_fit obs)).

(** Arithmetic without rounding: addition is commutative and associative,
    and dividing by a positive number distributes over sums. *)
Definition exact_addition (F : Type) {num : PyNum F} : Prop :=
  (forall a b : F, fadd a b = fadd b a) /\
  (forall a b c : F, fadd (fadd a b) c = fadd a (fadd b c)).

Definition exact_division (F : Type) {num : PyNum F} : Prop :=
  (forall a b s : F, fadd (fdiv a s) (fdiv b s) = fdiv (fadd a b) s) /\
  (forall s : F, fltb fzero s = true -> fdiv fzero s = fzero) /\
  (forall s : F, fltb fzero s = true -> fdiv s s = fone).

(** The Zernike rows of the misalignment, as they are spelled in the keys. *)
Definition zernike_rows : list string := ["04"; "05"; "06"; "07"; "08"; "09"; "10"; "11"].

(** How many items of a dict display are written with the key [k]. *)
Definition occurrences {V : Type} (k : string) (items : list (string * V)) : nat :=
  length (filter (fun kv => kv.1 = k) items).

(** ** The iterative calibration loop, [iterate] of tests/test_gp_interp.py *)

(** The model [mod] and the interpolator [interp] of the loop. *)
Class IterativeEnv (F Star Interp : Type) := {
  mod_fit : Star -> Star;                                  (* mod.fit *)
  mod_reflux : Star -> Star;                               (* mod.reflux *)
  interp_solve : Interp -> list Star -> Interp;            (* interp.solve, acting on interp *)
  interp_interpolateList : Interp -> list Star -> list Star;
  fit_chisq : Star -> F;                                   (* s.fit.chisq *)
  fit_dof : Star -> Z                                      (* s.fit.dof *)
}.

Section Iterate.
Context {F : Type} {num : PyNum F} {Star Interp : Type} {env : IterativeEnv F Star Interp}.

(** [chisq += s.fit.chisq; dof += s.fit.dof] over the stars, from 0. *)
Definition sum_chisq (stars : list Star) : F :=
  fold_left (fun c s => fadd c (fit_chisq s)) stars fzero.
Definition sum_dof (stars : list Star) : Z :=
  fold_left (fun d s => d + fit_dof s) stars 0.

(** What one pass of the loop body computes before its test. *)
Record iteration := {
  oldchisq : F;
  chisq : F;
  dof : Z
}.

(** [oldchisq>0 and abs(oldchisq-chisq) < dof/10.0] *)
Definition converged (it : iteration) : bool :=
  fltb fzero (oldchisq it)
  && fltb (fabs (fsub (oldchisq it) (chisq it))) (fdiv (of_Z (dof it)) (of_Z 10)).

(** [for iteration in range(n)], with the passes made so far recorded. *)
Fixpoint iterate_loop (n : nat) (stars : list Star) (interp : Interp) (old : F)
    : list iteration * (list Star * Interp) :=
  match n with
  | O => ([], (stars, interp))
  | S n' =>
      (* Refit PSFs star by star *)
      let stars := map mod_fit stars in
      (* Run the interpolator *)
      let interp := interp_solve interp stars in
      (* Install interpolator solution into each star, recalculate flux *)
      let stars := interp_interpolateList interp stars in
      let stars := map mod_reflux stars in
      let it := {| oldchisq := old; chisq := sum_chisq stars; dof := sum_dof stars |} in
      if converged it then ([it], (stars, interp))
      else
        let r := iterate_loop n' stars interp (chisq it) in
        (it :: r.1, r.2)
  end.

(** One pass of the loop body, from the stars and the interpolator before
    it to the stars and the interpolator after it. *)
Definition pass (s : list Star * Interp) : list Star * Interp :=
  let stars := map mod_fit s.1 in
  let interp := interp_solve s.2 stars in
  let stars := interp_interpolateList interp stars in
  (map mod_reflux stars, interp).

(** [iterate]. Before the loop the function prints [chisq/dof] of the stars
    it is given, a division of a Python float by an int. *)
Definition iterate (stars : list Star) (interp : Interp)
    : result (list iteration * (list Star * Interp)) :=
  if decide (sum_dof stars = 0) then Raise ZeroDivisionError
  else Ok (iterate_loop 10 stars interp fzero).
End Iterate.

(** ** The interpolators behind the tests

    [piff.kNNInterp] and [piff.GPInterp] are exercised by
    tests/test_knn_interp.py and tests/test_gp_interp.py, but their modules
    are not part of the sources at hand. What follows is written from their
    specification. *)

(** Modelled from the spec: the Gaussian-process library behind the
    regression interpolator, whose formulas the specification leaves to it:
    the covariance matrix of a kernel specification with a hyperparameter
    vector on a list of coordinates, and the regression weights that a fit
    computes from the kernel, its hyperparameters, the training coordinates
    and the centred training targets. *)
Class GaussianProcess (F : Type) := {
  kernel_matrix : string -> list F -> list (list F) -> list (list F);
  regression_weights :
    string -> list F -> list (list F) -> list (list F) -> list (list F)
}.

Section Interpolators.
Context {F : Type} {num : PyNum F} {gp : GaussianProcess F}.

(** Modelled from the spec: the star record (section 3, StarRecord), of which
    the interpolators read the named coordinates and properties and the
    fitted parameter vector; the class [piff.Star] is missing. *)
Record StarRecord := {
  properties : gmap string F;
  params : option (list F)
}.

(** Modelled from the spec: the nearest-neighbor interpolator (section 4.3,
    ExactNeighborInterp) with its parameters [n_neighbors], [attr_interp],
    [attr_target] and its trained state, the attribute matrix [X] and the
    target matrix [y]; the class [piff.kNNInterp] is missing. *)
Record kNNInterp := {
  n_neighbors : nat;
  attr_interp : list string;
  attr_target : list nat;
  X : list (list F);
  y : list (list F)
}.

(** Modelled from the spec: [build(attrInterp, attrTarget)] fixes the schema
    before any data is seen ([kNNInterp.build] is missing). *)
Definition build (k : nat) (attrInterp : list string) (attrTarget : list nat) : kNNInterp :=
  {| n_neighbors := k; attr_interp := attrInterp; attr_target := attrTarget;
     X := []; y := [] |}.

(** A fallible function applied along a list; the first failure is the
    result. *)
Fixpoint traverse {A B : Type} (f : A -> result B) (l : list A) : result (list B) :=
  match l with
  | [] => Ok []
  | a :: l' => b ← f a; bs ← traverse f l'; Ok (b :: bs)
  end.

(** Modelled from the spec: the interpolation attributes of a star, an
    ordered subset of its coordinates and properties; a declared attribute
    that the data lack is a ConfigurationError (section 7). *)
Definition attributes (names : list string) (s : StarRecord) : result (list F) :=
  traverse (fun n => match properties s !! n with
                     | Some v => Ok v
                     | None => Raise ConfigurationError
                     end) names.

(** Modelled from the spec: the selected targets of a star, an ordered subset
    of indices into its parameter vector. *)
Definition targets (indices : list nat) (s : StarRecord) : result (list F) :=
  match params s with
  | None => Raise ConfigurationError
  | Some p => traverse (fun i => match p !! i with
                                 | Some v => Ok v
                                 | None => Raise ConfigurationError
                                 end) indices
  end.

(** Modelled from the spec: [solve] replaces the state by the attribute
    matrix and the selected-target matrix of the training set, stored
    verbatim, and fails with InsufficientData below 2 samples
    ([kNNInterp.solve] is missing). *)
Definition solve (knn : kNNInterp) (training : list StarRecord) : result kNNInterp :=
  if decide (length training < 2)%nat then Raise InsufficientData
  else
    xs ← traverse (attributes (attr_interp knn)) training;
    ys ← traverse (targets (attr_target knn)) training;
    Ok {| n_neighbors := n_neighbors knn; attr_interp := attr_interp knn;
          attr_target := attr_target knn; X := xs; y := ys |}.

(** Modelled from the spec: Euclidean distance in attribute space, here
    squared, which orders the points in the same way: the squared
    differences of the attributes, added one after the other. *)
Definition dist2 (q x : list F) : F :=
  running_sum (zip_with (fun a b => np_square (fsub a b)) q x).

(** Modelled from the spec: the distance from the query to the stored row
    [i] of the attribute matrix. *)
Definition distance_to (q : list F) (rows : list (list F)) (i : nat) : F :=
  match rows !! i with
  | Some x => dist2 q x
  | None => fnan
  end.

(** Modelled from the spec: the distance-ordered index. The row [i] is put in
    front of the rows that are not strictly nearer, so that rows at equal
    distance stay in storage order. *)
Fixpoint insert_by (d : nat -> F) (i : nat) (l : list nat) : list nat :=
  match l with
  | [] => [i]
  | j :: l' => if fltb (d j) (d i) then j :: insert_by d i l' else i :: j :: l'
  end.

(** Modelled from the spec: the indices of all stored rows, nearest first. *)
Definition distance_order (q : list F) (rows : list (list F)) : list nat :=
  foldr (insert_by (distance_to q rows)) [] (seq 0 (length rows)).

(** Modelled from the spec: the mean of the [k] nearest targets, the exact
    value when [k = 1]. *)
Definition mean_rows (rows : list (list F)) : list F :=
  match rows with
  | [] => []
  | [r] => r
  | r :: rest =>
      map (fun c => fdiv c (of_Z (Z.of_nat (length rows))))
          (fold_left (zip_with fadd) rest r)
  end.

(** Modelled from the spec: [interpolate] returns a new star that carries
    the prediction and keeps the coordinates and properties of its argument
    ([kNNInterp.interpolate] is missing). *)
Definition knn_interpolate (knn : kNNInterp) (star : StarRecord) : result StarRecord :=
  q ← attributes (attr_interp knn) star;
  let nearest := take (n_neighbors knn) (distance_order q (X knn)) in
  let rows := omap (fun i => y knn !! i) nearest in
  Ok {| properties := properties star; params := Some (mean_rows rows) |}.

(** Modelled from the spec: the persistence sink (section 6), a resource of
    independently named sub-tables with typed columns; the FITS layer is
    missing. *)
Inductive column :=
| ColNames (l : list string)
| ColIndices (l : list nat)
| ColVector (v : list F)
| ColMatrix (m : list (list F)).

(** Modelled from the spec: the sink, from the name of a sub-table to its
    columns by name. *)
Definition sink := gmap string (gmap string column).

(** Modelled from the spec: reading a column of a given type; a column that
    is absent or of another type is a SerializationError (section 7). *)
Definition read_names (t : gmap string column) (c : string) : result (list string) :=
  match t !! c with Some (ColNames l) => Ok l | _ => Raise SerializationError end.
Definition read_indices (t : gmap string column) (c : string) : result (list nat) :=
  match t !! c with Some (ColIndices l) => Ok l | _ => Raise SerializationError end.
Definition read_vector (t : gmap string column) (c : string) : result (list F) :=
  match t !! c with Some (ColVector l) => Ok l | _ => Raise SerializationError end.
Definition read_matrix (t : gmap string column) (c : string) : result (list (list F)) :=
  match t !! c with Some (ColMatrix l) => Ok l | _ => Raise SerializationError end.

(** Modelled from the spec: the serializable state of the nearest-neighbor
    interpolator (section 3, InterpolantState): the raw coordinate and target
    matrices and the declared attribute-name schema. *)
Record NeighborState := {
  ns_X : list (list F);
  ns_y : list (list F);
  ns_attr_interp : list string;
  ns_attr_target : list nat
}.

(** Modelled from the spec: the serializable state that a nearest-neighbor
    interpolator holds. *)
Definition neighbor_state (knn : kNNInterp) : NeighborState :=
  {| ns_X := X knn; ns_y := y knn;
     ns_attr_interp := attr_interp knn; ns_attr_target := attr_target knn |}.

(** Modelled from the spec: [write(sink, name)] creates or replaces the
    sub-table [name] with the raw matrices and the attribute-name lists;
    [read(sink, name)] rebuilds the state from it, without retraining
    ([kNNInterp.write] and [kNNInterp.read] are missing). *)
Definition knn_write (knn : kNNInterp) (f : sink) (name : string) : sink :=
  <[name := {[ "X" := ColMatrix (X knn);
               "Y" := ColMatrix (y knn);
               "ATTR_INTERP" := ColNames (attr_interp knn);
               "ATTR_TARGET" := ColIndices (attr_target knn) ]}]> f.

(** Modelled from the spec: [read(sink, name)] of the nearest-neighbor
    interpolator; a missing sub-table is a SerializationError. *)
Definition knn_read (f : sink) (name : string) : result NeighborState :=
  match f !! name with
  | None => Raise SerializationError
  | Some t =>
      xs ← read_matrix t "X";
      ys ← read_matrix t "Y";
      ai ← read_names t "ATTR_INTERP";
      at_ ← read_indices t "ATTR_TARGET";
      Ok {| ns_X := xs; ns_y := ys; ns_attr_interp := ai; ns_attr_target := at_ |}
  end.

(** Modelled from the spec: the trained regression interpolator (sections 3
    and 4.4), with the attributes that tests/test_gp_interp.py reads from
    [interp.gp] and [interp]: the kernel specification, the hyperparameter
    vector as requested ([gp.kernel.theta]) and as optimized
    ([gp.kernel_.theta]), the training coordinates ([gp.X_train_]), the
    training targets of the retained dimensions, the per-dimension target
    means ([gp.y_train_mean]), the regression weights ([gp.alpha_]), and the
    number of PCA components with the transform; the class [piff.GPInterp]
    is missing. *)
Record RegressionState := {
  rs_kernel : string;
  rs_theta : list F;
  rs_theta_optimized : list F;
  rs_X_train : list (list F);
  rs_y_train : list (list F);
  rs_y_train_mean : list F;
  rs_alpha : list (list F);
  rs_npca : nat;
  rs_pca : list (list F)
}.

(** Modelled from the spec: the targets with the per-dimension mean
    subtracted, which is what the regression is fitted to (section 4.4,
    step 2). *)
Definition centred (targets : list (list F)) (mean : list F) : list (list F) :=
  map (fun row => zip_with fsub row mean) targets.

(** Modelled from the spec: the regression weights that a fit without
    hyperparameter search computes for given hyperparameters. *)
Definition fitted_weights (kernel : string) (theta : list F)
    (coords targets : list (list F)) (mean : list F) : list (list F) :=
  regression_weights kernel theta coords (centred targets mean).

(** Modelled from the spec: a state is trained when its regression weights
    are those of the fit with its optimized hyperparameters on its training
    coordinates and targets. *)
Definition trained (st : RegressionState) : Prop :=
  rs_alpha st = fitted_weights (rs_kernel st) (rs_theta_optimized st)
                  (rs_X_train st) (rs_y_train st) (rs_y_train_mean st).

(** Modelled from the spec: the covariance matrix of the trained kernel,
    with the optimized hyperparameters, on the training coordinates. *)
Definition trained_covariance (st : RegressionState) : list (list F) :=
  kernel_matrix (rs_kernel st) (rs_theta_optimized st) (rs_X_train st).

(** Modelled from the spec: the covariance matrix of the kernel as
    requested on the training coordinates ([interp.gp.kernel(X)] in
    tests/test_gp_interp.py). *)
Definition requested_covariance (st : RegressionState) : list (list F) :=
  kernel_matrix (rs_kernel st) (rs_theta st) (rs_X_train st).

(** Modelled from the spec: [write] persists the kernel specification, the
    two hyperparameter vectors, the training coordinates and the target
    means (section 4.4), and the PCA transform. The training targets are
    persisted with them: the regression weights, which a reload has to
    reproduce, are computed from the targets and are not stored
    ([GPInterp.write] is missing). *)
Definition gp_write (st : RegressionState) (f : sink) (name : string) : sink :=
  <[name := {[ "KERNEL" := ColNames [rs_kernel st];
               "INIT_THETA" := ColVector (rs_theta st);
               "FIT_THETA" := ColVector (rs_theta_optimized st);
               "X" := ColMatrix (rs_X_train st);
               "Y" := ColMatrix (rs_y_train st);
               "Y_MEAN" := ColVector (rs_y_train_mean st);
               "NPCA" := ColIndices [rs_npca st];
               "PCA" := ColMatrix (rs_pca st) ]}]> f.

(** Modelled from the spec: [read(sink, name)] of the regression
    interpolator rebuilds the state from the sub-table and fits the
    regression again on the persisted training data with the persisted
    optimized hyperparameters, without a new search ([GPInterp.read] is
    missing). *)
Definition gp_read (f : sink) (name : string) : result RegressionState :=
  match f !! name with
  | None => Raise SerializationError
  | Some t =>
      k ← read_names t "KERNEL";
      th ← read_vector t "INIT_THETA";
      tho ← read_vector t "FIT_THETA";
      xs ← read_matrix t "X";
      ys ← read_matrix t "Y";
      ym ← read_vector t "Y_MEAN";
      n ← read_indices t "NPCA";
      pc ← read_matrix t "PCA";
      match k, n with
      | [k], [n] =>
          Ok {| rs_kernel := k; rs_theta := th; rs_theta_optimized := tho;
                rs_X_train := xs; rs_y_train := ys; rs_y_train_mean := ym;
                rs_alpha := fitted_weights k tho xs ys ym;
                rs_npca := n; rs_pca := pc |}
      | _, _ => Raise SerializationError
      end
  end.
End Interpolators.
Arguments StarRecord F : clear implicits.
Arguments kNNInterp F : clear implicits.
Arguments NeighborState F : clear implicits.
Arguments RegressionState F : clear implicits.
Arguments column F : clear implicits.
Arguments sink F : clear implicits.

(** ** A small bench for concrete runs

    A star is reduced to its descriptor (size, g1, g2); the optical model
    renders a star whose descriptor is (r0, g1, g2); the geometry and the
    wavefront interpolator leave stars as they are; the search follows a
    script of points. *)

Section Bench.
Context {F : Type} {num : PyNum F}.

Definition bench_draw (m : Optical F) (s : F * F * F) : F * F * F :=
  (default fzero (kolmogorov_kwargs m !! "r0"), g1 m, g2 m).

Definition bench : Collaborators F (F * F * F) := {|
  pixel_to_focal := fun s => s;
  interpolate := fun _ s => s;
  draw := bench_draw;
  comparer_fit := fun s => s;
  fit_params := fun s => [s.1.1; s.1.2; s.2];
  descriptor_dim := 3;
  fit_params_length := fun _ => eq_refl
|}.

Definition scripted_next (script : list (list F)) (seen : list (list F * F))
    : option (list F) :=
  match script !! length seen with
  | Some xs => if decide (length xs = length param_names) then Some xs else None
  | None => None
  end.

Definition scripted_values (seen : list (list F * F)) : gmap string F :=
  match last seen with
  | Some c => list_to_map (zip param_names c.1)
  | None => ∅
  end.

Lemma scripted_next_arity (script : list (list F)) (kw : gmap string (pyval F))
    (seen : list (list F * F)) (xs : list F) :
  scripted_next script seen = Some xs -> length xs = length param_names.
Proof.
  unfold scripted_next. destruct (script !! length seen) as [ys|]; [|discriminate].
  destruct (decide (length ys = length param_names)) as [Hl|]; [|discriminate].
  intros [= <-]. exact Hl.
Qed.

Definition scripted (script : list (list F)) : Minuit F := {|
  migrad_next := fun _ seen => scripted_next script seen;
  minuit_values := fun _ seen => scripted_values seen;
  minuit_fitarg := fun kw _ => kw;
  migrad_next_arity := scripted_next_arity script
|}.

(** The default weights [0.5, 1, 1]. *)
Definition default_weights : list F := [dec 5 10; fone; fone].

Definition flat_interp : DECamWavefront F :=
  {| misalignment := replicate 8 (replicate 3 fzero) |}.

Definition bare_model : Optical F :=
  {| kolmogorov_kwargs := ∅; g1 := fone; g2 := fone |}.

(** The object that [__init__] returns for the default arguments. *)
Definition bench_psf : DECamWavefrontPSF F (F * F * F) unit unit := {|
  interp := flat_interp;
  model := {| kolmogorov_kwargs := {[ "r0" := dec 1 10 ]}; g1 := of_Z 0; g2 := of_Z 0 |};
  weights := map (fun w => fdiv w (np_sum default_weights)) default_weights;
  extra_interp_properties := [];
  kwargs_minuit := ∅;
  minuit_kwargs := dict_of_literal minuit_kwargs_literal;
  stars := None; wcs := None; pointing := None;
  _stars := None; _shapes := None; _minuit := None; _fitarg := None
|}.

(** Two observed stars and two points of the parameter space. *)
Definition star_a : F * F * F := (fzero, fzero, dec 1 10).
Definition star_b : F * F * F := (dec 1 10, dec 3 10, fzero).
Definition origin : list F := replicate 27 fzero.
Definition unit_point : list F := replicate 27 fone.

(** The objective of the default object at the origin, on a list of
    observed stars. *)
Definition bench_objective (obs : list (F * F * F)) : option F :=
  match _fit_func (col := bench) (with_targets (col := bench) bench_psf obs) origin with
  | Ok r => Some r.1
  | Raise _ => None
  end.

(** A fit of the two stars with a scripted search and a budget of calls. *)
Definition bench_fit (script : list (list F)) (budget : nat)
    : result (pyval F * DECamWavefrontPSF F (F * F * F) unit unit * option (list log_record)) :=
  fit (col := bench) (opt := scripted script) bench_psf [star_a; star_b] tt tt (dec 1 10)
    budget false (Some []).

(** Two training stars at the same place with different parameters, for
    the nearest-neighbor interpolator. *)
Definition twin_1 : StarRecord F :=
  {| properties := {[ "focal_x" := dec 5 10; "focal_y" := dec 25 100 ]};
     params := Some [of_Z 1; of_Z 2; of_Z 3; of_Z 4; of_Z 5] |}.
Definition twin_2 : StarRecord F :=
  {| properties := {[ "focal_x" := dec 5 10; "focal_y" := dec 25 100 ]};
     params := Some [of_Z 6; of_Z 7; of_Z 8; of_Z 9; of_Z 10] |}.
Definition far_star : StarRecord F :=
  {| properties := {[ "focal_x" := of_Z 2; "focal_y" := of_Z 3 ]};
     params := Some [of_Z 6; of_Z 7; of_Z 8; of_Z 9; of_Z 10] |}.
Definition test_knn : kNNInterp F := build 1 ["focal_x"; "focal_y"] [0; 1; 2; 3; 4]%nat.

(** A regression library for concrete runs: the covariance of two points
    is the first hyperparameter times their squared distance, and the
    weights are the centred targets themselves. *)
Definition bench_gp : GaussianProcess F := {|
  kernel_matrix := fun _ theta coords =>
    map (fun x => map (fun x' => fmul (default fone (head theta)) (dist2 x x')) coords) coords;
  regression_weights := fun _ _ _ targets => targets
|}.

(** A regression interpolator trained on two points with that library. *)
Definition bench_regression : RegressionState F := {|
  rs_kernel := "RBF";
  rs_theta := [of_Z 1];
  rs_theta_optimized := [of_Z 2];
  rs_X_train := [[of_Z 0; of_Z 0]; [of_Z 1; of_Z 0]];
  rs_y_train := [[of_Z 1]; [of_Z 3]];
  rs_y_train_mean := [of_Z 2];
  rs_alpha := [[fsub (of_Z 1) (of_Z 2)]; [fsub (of_Z 3) (of_Z 2)]];
  rs_npca := 0;
  rs_pca := []
|}.
End Bench.

(** ** Observations on the joint mode used in further statements *)

Section Observations.
Context {F : Type} {num : PyNum F} {Star Wcs Pointing : Type}.

(** The keyword arguments of one call that stands for a call with [a]
    followed by a call with [b]: for each parameter the value of [b], unless
    it is NaN (or not passed), in which case the value of [a]. *)
Definition later_wins (a b : gmap string F) : gmap string F :=
  list_to_map
    (map (fun name =>
            (name, if feqb (arg b name) (arg b name) then arg b name else arg a name))
       param_names).

(** Two objects on which the objective reads the same data: the same
    weights, measured stars and targets, optical settings that agree apart
    from r0, and an 8 by 3 misalignment each. What they may differ in is
    the value installed for each of the 27 parameters (and the attributes
    that the objective does not read). *)
Definition same_objective (s1 s2 : DECamWavefrontPSF F Star Wcs Pointing) : Prop :=
  weights s1 = weights s2 /\ _stars s1 = _stars s2 /\ _shapes s1 = _shapes s2 /\
  delete "r0" (kolmogorov_kwargs (model s1)) = delete "r0" (kolmogorov_kwargs (model s2)) /\
  is_8x3 (misalignment (interp s1)) /\ is_8x3 (misalignment (interp s2)).
End Observations.

Section Defaults.
Context {F : Type} {num : PyNum F}.

(** The value that the dict display of [__init__] gives to a parameter. *)
Definition default_parameter (name : string) : pyval F :=
  if decide (name = "r0") then PyFloat (dec 1 10) else PyInt 0.
End Defaults.

Section SharedDefault.
Context {F : Type} {num : PyNum F} {Star Wcs Pointing : Type}.
Context {col : Collaborators F Star} {opt : Minuit F}.

(** The default value of the parameter [minuit_kwargs] of [__init__] is the
    dict display of the signature. Python evaluates it once, when the
    function is defined: every call that does not pass the argument is
    handed that one dict object, and [self.kwargs['minuit']] of the object
    built is that same object. [shared] is what the dict holds at the time
    of the call. *)
Definition init_by_default (shared : gmap string (pyval F))
    (interp0 : DECamWavefront F) (model0 : Optical F)
    (extra_interp_properties0 : option (list string)) (weights0 : list F)
    : result (DECamWavefrontPSF F Star Wcs Pointing) :=
  __init__ interp0 model0 extra_interp_properties0 weights0 shared.

(** [fit] on an object built that way. Its last statement,
    [self.kwargs['minuit'].update(self._fitarg)], writes into the shared
    dict: the result is the object together with what the shared dict holds
    afterwards. *)
Definition fit_by_default (self : DECamWavefrontPSF F Star Wcs Pointing)
    (stars : list Star) (wcs : Wcs) (pointing : Pointing)
    (chisq_threshold : F) (max_iterations : nat) (skip_fit : bool)
    (logger : option (list log_record))
    : result (DECamWavefrontPSF F Star Wcs Pointing * gmap string (pyval F)) :=
  r ← fit self stars wcs pointing chisq_threshold max_iterations skip_fit logger;
  Ok (r.1.2, kwargs_minuit r.1.2).
End SharedDefault.

(** A binary64 number that is not finite: NaN or an infinity. *)
Definition non_finite (x : float) : Prop :=
  x = nan \/ x = infinity \/ x = neg_infinity.

(** * Properties *)

Set Warnings "-inexact-float".

(** ** Exact arithmetic is exact *)

Lemma exact_addition_exact : exact_addition (option Qc).
Proof.
  split.
  - intros [a|] [b|]; simpl; try reflexivity. by rewrite Qcplus_comm.
  - intros [a|] [b|] [c|]; simpl; try reflexivity. by rewrite Qcplus_assoc.
Qed.

Lemma xltb_zero_pos (s : Qc) : xltb (Some (Q2Qc 0)) (Some s) = true -> s <> Q2Qc 0.
Proof.
  simpl. destruct (Qclt_le_dec (Q2Qc 0) s) as [Hlt|]; [intros _|discriminate].
  intros ->. exact (Qclt_not_eq _ _ Hlt eq_refl).
Qed.

Lemma exact_division_exact : exact_division (option Qc).
Proof.
  split; [|split].
  - intros [a|] [b|] [s|]; simpl; try reflexivity;
      destruct (Qc_eq_dec s (Q2Qc 0)); simpl; try reflexivity.
    f_equal. unfold Qcdiv. by rewrite Qcmult_plus_distr_l.
  - intros [s|] Hs; [|discriminate]. pose proof (xltb_zero_pos s Hs) as Hne.
    simpl. destruct (Qc_eq_dec s (Q2Qc 0)); [contradiction|].
    f_equal. unfold Qcdiv. apply Qcmult_0_l.
  - intros [s|] Hs; [|discriminate]. pose proof (xltb_zero_pos s Hs) as Hne.
    simpl. destruct (Qc_eq_dec s (Q2Qc 0)); [contradiction|].
    f_equal. unfold Qcdiv. by apply Qcmult_inv_r.
Qed.

(** ** Sums *)

Section Summation.
Context {F : Type} {num : PyNum F}.

Lemma fold_left_fadd_shift (l : list F) (a b : F) :
  exact_addition F -> fold_left fadd l (fadd a b) = fadd (fold_left fadd l a) b.
Proof.
  intros [Hcomm Hassoc]. revert a. induction l as [|x l IH]; intros a; simpl; [reflexivity|].
  rewrite <- IH. f_equal. rewrite !Hassoc. f_equal. apply Hcomm.
Qed.

Lemma fold_left_fadd_swap (l1 l2 : list F) (acc : F) :
  exact_addition F ->
  fold_left fadd l1 (fold_left fadd l2 acc) = fold_left fadd l2 (fold_left fadd l1 acc).
Proof.
  intros Hex. revert acc. induction l1 as [|x l1 IH]; intros acc; simpl; [reflexivity|].
  rewrite <- (fold_left_fadd_shift l2 acc x Hex). apply IH.
Qed.

Lemma fold_left_fadd_permutation (l l' : list F) :
  exact_addition F -> Permutation l l' ->
  forall acc, fold_left fadd l acc = fold_left fadd l' acc.
Proof.
  intros Hex Hp.
  induction Hp as [|x l l' Hp IH|x y l|l l' l'' Hp IH Hp' IH']; intros acc; simpl.
  - reflexivity.
  - apply IH.
  - f_equal. exact (fold_left_fadd_swap [x] [y] acc Hex).
  - by rewrite IH.
Qed.

Lemma chain_sum_app_fold (l1 l2 : list F) :
  l1 <> [] -> chain_sum (l1 ++ l2) = fold_left fadd l2 (chain_sum l1).
Proof. destruct l1 as [|x l1]; [done|intros _]. simpl. apply fold_left_app. Qed.

Lemma chain_sum_app (l1 l2 : list F) :
  exact_addition F -> l1 <> [] -> l2 <> [] ->
  chain_sum (l1 ++ l2) = fadd (chain_sum l1) (chain_sum l2).
Proof.
  intros Hex H1 H2. rewrite (chain_sum_app_fold _ _ H1).
  destruct l2 as [|y l2]; [done|]. simpl.
  rewrite (proj1 Hex (chain_sum l1) y), (fold_left_fadd_shift l2 _ _ Hex).
  apply (proj1 Hex).
Qed.

Lemma chain_sum_zip (r c : list F) :
  exact_addition F -> length r = length c -> r <> [] ->
  chain_sum (zip_with fadd r c) = fadd (chain_sum r) (chain_sum c).
Proof.
  intros Hex Hl Hr. destruct r as [|x r]; [done|]. destruct c as [|y c]; [discriminate|].
  simpl in *. injection Hl as Hl. clear Hr. revert x y c Hl.
  induction r as [|r0 r IH]; intros x y [|c0 c] Hl; try discriminate; simpl; [reflexivity|].
  injection Hl as Hl. rewrite <- (IH _ _ _ Hl). f_equal.
  destruct Hex as [Hcomm Hassoc].
  rewrite !Hassoc. f_equal. rewrite <- !Hassoc. f_equal. apply Hcomm.
Qed.

Lemma add_lanes_chain (r : list F) :
  exact_addition F -> length r = 8%nat -> add_lanes r = chain_sum r.
Proof.
  intros [_ Hassoc] Hl.
  do 8 (destruct r as [|? r]; [discriminate|]). destruct r; [|discriminate].
  simpl. rewrite !Hassoc. reflexivity.
Qed.

Lemma lanes_chain (k : nat) :
  exact_addition F ->
  forall r a : list F, length r = 8%nat -> (8 * k <= length a)%nat ->
    fold_left fadd (lanes k r a).2 (add_lanes (lanes k r a).1) = chain_sum (r ++ a).
Proof.
  intros Hex. induction k as [|k IH]; intros r a Hr Ha.
  - simpl. rewrite (add_lanes_chain r Hex Hr). symmetry. apply chain_sum_app_fold.
    by destruct r.
  - cbn [lanes].
    assert (Ht : length (take 8 a) = 8%nat) by (rewrite length_take; lia).
    assert (Hrne : r <> []) by (intros ->; discriminate).
    assert (Htne : take 8 a <> []) by (intros Hnil; rewrite Hnil in Ht; discriminate).
    assert (Hzne : zip_with fadd r (take 8 a) <> []).
    { intros Hnil. apply (f_equal length) in Hnil.
      rewrite length_zip_with, Hr, Ht in Hnil. discriminate. }
    assert (Hane : (r ++ take 8 a)%list <> []) by (destruct r; done).
    rewrite IH.
    + rewrite (chain_sum_app_fold _ (drop 8 a) Hzne).
      rewrite (chain_sum_zip r (take 8 a) Hex (eq_trans Hr (eq_sym Ht)) Hrne).
      rewrite <- (chain_sum_app r (take 8 a) Hex Hrne Htne).
      rewrite <- (chain_sum_app_fold _ (drop 8 a) Hane).
      by rewrite <- app_assoc, take_drop.
    + rewrite length_zip_with, Ht. lia.
    + rewrite length_drop. lia.
Qed.

Lemma block_sum_chain (a : list F) :
  exact_addition F -> (8 <= length a)%nat -> block_sum a = chain_sum a.
Proof.
  intros Hex Ha. unfold block_sum. cbv zeta. rewrite (lanes_chain _ Hex).
  - by rewrite take_drop.
  - rewrite length_take. lia.
  - rewrite length_drop.
    pose proof (Nat.div_mod_eq (length a) 8). lia.
Qed.

Lemma pairwise_sum_chain (depth : nat) :
  exact_addition F ->
  forall a : list F, (8 <= length a <= 128 + depth)%nat ->
    pairwise_sum depth a = chain_sum a.
Proof.
  intros Hex. induction depth as [|d IH]; intros a Ha.
  - simpl. rewrite decide_False by lia. rewrite decide_True by lia.
    apply block_sum_chain; [exact Hex|lia].
  - cbn [pairwise_sum]. cbv zeta. rewrite decide_False by lia.
    destruct (decide (length a <= 128)%nat) as [Hs|Hb].
    + apply block_sum_chain; [exact Hex|lia].
    + set (n2 := (length a / 2 - (length a / 2) mod 8)%nat).
      assert (Hn2 : (57 <= n2 <= length a - 64)%nat).
      { subst n2. pose proof (Nat.div_mod_eq (length a) 2).
        pose proof (Nat.mod_upper_bound (length a) 2).
        pose proof (Nat.mod_upper_bound (length a / 2) 8). lia. }
      rewrite !IH.
      * rewrite <- (chain_sum_app _ _ Hex).
        -- by rewrite take_drop.
        -- intros Hnil. apply (f_equal length) in Hnil.
           rewrite length_take in Hnil. simpl in Hnil. lia.
        -- intros Hnil. apply (f_equal length) in Hnil.
           rewrite length_drop in Hnil. simpl in Hnil. lia.
      * rewrite length_drop. lia.
      * rewrite length_take. lia.
Qed.

(** The number of cuts allowed does not matter once it is large enough. *)
Lemma pairwise_sum_depth (d d' : nat) :
  forall a : list F, (length a <= 128 + d)%nat -> (length a <= 128 + d')%nat ->
    pairwise_sum d a = pairwise_sum d' a.
Proof.
  revert d'. induction d as [|d IH]; intros d' a Ha Ha'.
  - destruct d' as [|d']; [reflexivity|]. cbn [pairwise_sum]. cbv zeta.
    destruct (decide (length a < 8)%nat); [reflexivity|].
    destruct (decide (length a <= 128)%nat); [reflexivity|lia].
  - destruct d' as [|d'].
    + cbn [pairwise_sum]. cbv zeta.
      destruct (decide (length a < 8)%nat); [reflexivity|].
      destruct (decide (length a <= 128)%nat); [reflexivity|lia].
    + cbn [pairwise_sum]. cbv zeta.
      destruct (decide (length a < 8)%nat); [reflexivity|].
      destruct (decide (length a <= 128)%nat); [reflexivity|].
      set (n2 := (length a / 2 - (length a / 2) mod 8)%nat).
      assert (Hn2 : (57 <= n2 <= length a - 64)%nat).
      { subst n2. pose proof (Nat.div_mod_eq (length a) 2).
        pose proof (Nat.mod_upper_bound (length a) 2).
        pose proof (Nat.mod_upper_bound (length a / 2) 8). lia. }
      f_equal; apply IH; rewrite ?length_take, ?length_drop; lia.
Qed.

(** Without rounding, [np.sum] is the running sum of the elements, from a
    start that depends on their number only. *)
Lemma np_sum_exact (l : list F) :
  exact_addition F ->
  np_sum l
  = fold_left fadd l (if decide (length l < 8)%nat then fadd fzero fzero else fzero).
Proof.
  intros Hex. unfold np_sum.
  destruct (decide (length l < 8)%nat) as [Hs|Hb].
  - destruct l as [|x l]; [reflexivity|].
    change (pairwise_sum (length (x :: l)) (x :: l))
      with (if decide (length (x :: l) < 8)%nat then running_sum (x :: l)
            else if decide (length (x :: l) <= 128)%nat then block_sum (x :: l)
            else fadd (pairwise_sum (length l)
                         (take (length (x :: l) / 2 - (length (x :: l) / 2) mod 8) (x :: l)))
                      (pairwise_sum (length l)
                         (drop (length (x :: l) / 2 - (length (x :: l) / 2) mod 8) (x :: l)))).
    rewrite decide_True by exact Hs. unfold running_sum.
    rewrite (fold_left_fadd_shift _ _ _ Hex). destruct Hex as [Hcomm _]. apply Hcomm.
  - rewrite (pairwise_sum_chain _ Hex) by lia.
    change (fold_left fadd l fzero) with (chain_sum ([fzero] ++ l)).
    rewrite (chain_sum_app _ _ Hex); [reflexivity|done|].
    intros ->. simpl in Hb. lia.
Qed.

Lemma np_sum_permutation (l l' : list F) :
  exact_addition F -> Permutation l l' -> np_sum l = np_sum l'.
Proof.
  intros Hex Hp. rewrite !np_sum_exact by exact Hex.
  rewrite (Permutation_length Hp). by apply fold_left_fadd_permutation.
Qed.
End Summation.

(** The grouping at work in binary64: ten times 0.1 add up to 1.0 the way
    numpy adds them, and to 0.9999999999999999 one after the other. *)
Lemma np_sum_of_ten_tenths :
  np_sum (replicate 10 (dec 1 10 : float)) = fone /\
  running_sum (replicate 10 (dec 1 10 : float)) = 0.99999999999999989%float.
Proof. split; vm_compute; reflexivity. Qed.

(** ** Joint mode: the class [DECamWavefrontPSF] *)

Section JointMode.
Context {F : Type} {num : PyNum F} {Star Wcs Pointing : Type}.
Context {col : Collaborators F Star} {opt : Minuit F}.
Abbreviation PSF := (DECamWavefrontPSF F Star Wcs Pointing).

Lemma is_8x3_inv (m : list (list F)) :
  is_8x3 m ->
  exists a0 a1 a2 b0 b1 b2 c0 c1 c2 d0 d1 d2 e0 e1 e2 f0 f1 f2 g0 g1 g2 h0 h1 h2,
    m = [[a0;a1;a2];[b0;b1;b2];[c0;c1;c2];[d0;d1;d2];[e0;e1;e2];[f0;f1;f2];[g0;g1;g2];[h0;h1;h2]].
Proof.
  unfold is_8x3, shape. intros Hs.
  do 8 (destruct m as [|[|?[|?[|?[|? ?]]]] m]; try discriminate Hs).
  destruct m; [|discriminate Hs].
  repeat eexists.
Qed.

(** [update_psf_params] succeeds on an 8 by 3 misalignment, and installs a
    parameter exactly when the value passed for it equals itself. *)
Lemma update_psf_params_installed (self : PSF) (a : gmap string F) :
  is_8x3 (misalignment (interp self)) ->
  exists self', update_psf_params self a = Ok self' /\
    is_8x3 (misalignment (interp self')) /\ same_frame self self' /\
    forall name, name ∈ param_names ->
      installed self' name =
        if feqb (arg a name) (arg a name) then Some (arg a name) else installed self name.
Proof.
  intros Hs.
  destruct (is_8x3_inv _ Hs)
    as (a0&a1&a2&b0&b1&b2&c0&c1&c2&d0&d1&d2&e0&e1&e2&f0&f1&f2&g0&g1&g2&h0&h1&h2&Hm).
  destruct self as [[mis] [kk mg1 mg2] w e km mk st wc po s_ sh mi fa].
  simpl in Hm. subst mis.
  eexists. split; [|split; [|split]].
  - unfold update_psf_params, np_where, np_zip2. simpl. reflexivity.
  - reflexivity.
  - repeat split.
  - intros name Hin. unfold param_names in Hin.
    repeat (apply elem_of_cons in Hin; destruct Hin as [->|Hin]);
      [ .. | by apply elem_of_nil in Hin ].
    all: unfold installed; simpl; try (destruct (feqb _ _); reflexivity).
    all: destruct (feqb (arg a "r0") (arg a "r0")),
                  (feqb (arg a "g1") (arg a "g1")),
                  (feqb (arg a "g2") (arg a "g2")); simpl;
           try reflexivity; apply lookup_insert_eq.
Qed.

(** Whatever the shape of the old misalignment, a call that returns has
    assigned nothing but the model and the misalignment, and what it assigns
    depends on nothing else. *)
Lemma update_psf_params_frame (self self' : PSF) (a : gmap string F) :
  update_psf_params self a = Ok self' -> same_frame self self'.
Proof.
  unfold update_psf_params.
  destruct (np_where _ _ _) as [m|]; [|discriminate].
  cbn [mbind result_bind]. intros [= <-]. repeat split.
Qed.

Lemma update_psf_params_local (self1 self2 self1' self2' : PSF) (a : gmap string F) :
  interp self1 = interp self2 -> model self1 = model self2 ->
  update_psf_params self1 a = Ok self1' -> update_psf_params self2 a = Ok self2' ->
  interp self1' = interp self2' /\ model self1' = model self2'.
Proof.
  unfold update_psf_params. intros Hi Hm.
  cbn [set_model interp model]. rewrite Hi, Hm.
  destruct (np_where _ _ _) as [m|]; [|discriminate].
  cbn [mbind result_bind]. intros [= <-] [= <-]. split; reflexivity.
Qed.

Lemma arg_singleton_ne (name other : string) (v : F) :
  other <> name -> arg ({[name := v]} : gmap string F) other = fnan.
Proof. intros Hne. unfold arg. by rewrite lookup_singleton_ne. Qed.

(** C1. Partial parameter update: on the 8 by 3 misalignment, a call of
    [update_psf_params] leaves the installed value of every parameter that
    is passed as NaN (the default of a parameter that is not passed)
    unchanged and replaces it by every value that is not NaN; a call that
    passes one coefficient only leaves r0, g1, g2 and every other entry of
    the misalignment as they were. *)
Theorem update_psf_params_partial (self : PSF) (a : gmap string F) :
  is_8x3 (misalignment (interp self)) ->
  exists self', update_psf_params self a = Ok self' /\
    (forall name, name ∈ param_names -> arg a name = fnan ->
       installed self' name = installed self name) /\
    (forall name, name ∈ param_names -> arg a name <> fnan ->
       installed self' name = Some (arg a name)) /\
    (forall name v, a = {[name := v]} ->
       forall other, other ∈ param_names -> other <> name ->
         installed self' other = installed self other).
Proof.
  intros Hs. destruct (update_psf_params_installed self a Hs) as (self' & Hu & _ & _ & Hi).
  exists self'. split; [exact Hu|]. repeat split.
  - intros name Hin Hnan. rewrite (Hi name Hin), Hnan, feqb_nan. reflexivity.
  - intros name Hin Hv. rewrite (Hi name Hin), (feqb_refl _ Hv). reflexivity.
  - intros name v -> other Hin Hne.
    rewrite (Hi other Hin), (arg_singleton_ne _ _ _ Hne), feqb_nan. reflexivity.
Qed.

Lemma bind_positional_ok (xs : list F) :
  length xs = length param_names ->
  bind_positional xs = Ok (list_to_map (zip param_names xs)).
Proof. intros Hl. unfold bind_positional. by rewrite decide_True. Qed.

(** The sum of a two-dimensional array, row after row. *)
Lemma fold_left_concat (rows : list (list F)) (acc : F) :
  fold_left fadd (concat rows) acc
  = fold_left (fun c row => fold_left fadd row c) rows acc.
Proof.
  revert acc. induction rows as [|r rows IH]; intros acc; simpl; [reflexivity|].
  rewrite fold_left_app. apply IH.
Qed.

(** The array [weights * square(shapes - targets)], row by row. *)
Lemma residual_rows (w : list F) (S T : list (list F)) :
  map (zip_with fmul w) (map (map np_square) (zip_with (zip_with fsub) S T))
  = zip_with (weighted_residuals w) S T.
Proof.
  revert T. induction S as [|s S IH]; intros [|t T]; simpl; try reflexivity.
  by rewrite IH.
Qed.

Lemma chi2_accumulate (w : list F) (S T : list (list F)) (acc : F) :
  fold_left fadd (concat (zip_with (weighted_residuals w) S T)) acc
  = fold_left (accumulate w) (zip S T) acc.
Proof.
  rewrite fold_left_concat. revert T acc.
  induction S as [|s S IH]; intros [|t T] acc; simpl; try reflexivity.
  apply IH.
Qed.

(** Without rounding, the sum that numpy takes is the sum accumulated star
    by star. *)
Lemma objective_accumulated (w : list F) (S T : list (list F)) :
  exact_addition F -> fadd fzero fzero = fzero ->
  objective w S T = accumulated_objective w S T.
Proof.
  intros Hex Hz. unfold objective, accumulated_objective.
  rewrite (np_sum_exact _ Hex), chi2_accumulate.
  destruct (decide _); by rewrite ?Hz.
Qed.

Lemma np_size_dof (S : list (list F)) : np_size S = degrees_of_freedom S.
Proof.
  unfold np_size, degrees_of_freedom. f_equal.
  induction S as [|s S IH]; simpl; [reflexivity|].
  rewrite length_app, IH. reflexivity.
Qed.

Lemma shape_remeasure (self : PSF) (sts : list Star) :
  shape (map (remeasure self) sts) = replicate (length sts) descriptor_dim.
Proof.
  unfold shape. induction sts as [|s sts IH]; simpl; [reflexivity|].
  rewrite IH. unfold remeasure. by rewrite fit_params_length.
Qed.

Lemma shape_targets (obs : list Star) :
  shape (map fit_params (map comparer_fit obs))
  = replicate (length (map comparer_fit obs)) descriptor_dim.
Proof.
  unfold shape. induction obs as [|s obs IH]; simpl; [reflexivity|].
  by rewrite IH, fit_params_length.
Qed.

Lemma rows_aligned (w : list F) (S T : list (list F)) (n d : nat) :
  shape S = replicate n d -> shape T = replicate n d -> length w = d ->
  Forall (fun r => length r = length w) (map (map np_square) (zip_with (zip_with fsub) S T)).
Proof.
  unfold shape. intros HS HT Hw. revert T n HS HT.
  induction S as [|s S IH]; intros [|t T] [|n] HS HT; simpl in *;
    try discriminate; try constructor.
  - injection HS as Hs HS. injection HT as Ht HT.
    rewrite length_map, length_zip_with. lia.
  - injection HS as Hs HS. injection HT as Ht HT. by apply (IH T n).
Qed.

Lemma dof_remeasure (self : PSF) (sts : list Star) :
  degrees_of_freedom (map (remeasure self) sts) = Z.of_nat (length sts * descriptor_dim).
Proof.
  unfold degrees_of_freedom. f_equal.
  induction sts as [|s sts IH]; simpl; [reflexivity|].
  rewrite IH. unfold remeasure. by rewrite fit_params_length.
Qed.

(** One evaluation of the objective. *)
Lemma fit_func_objective (self : PSF) (xs : list F) (sts : list Star) (T : list (list F)) :
  ready self -> length xs = length param_names ->
  _stars self = Some sts -> sts <> [] ->
  _shapes self = Some T -> shape T = replicate (length sts) descriptor_dim ->
  exists self',
    update_psf_params self (list_to_map (zip param_names xs)) = Ok self' /\
    _fit_func self xs = Ok (objective (weights self) (map (remeasure self') sts) T, self').
Proof.
  intros [H8 Hw] Hxs Hst Hne Hsh HT.
  destruct (update_psf_params_installed self (list_to_map (zip param_names xs)) H8)
    as (self' & Hu & H8' & Hfr & _).
  exists self'. split; [exact Hu|].
  destruct Hfr as (Hw' & _ & _ & _ & _ & _ & _ & Hst' & Hsh' & _).
  unfold _fit_func. rewrite (bind_positional_ok _ Hxs). cbn [mbind result_bind].
  rewrite Hu. cbn [mbind result_bind].
  rewrite Hst', Hst, Hsh', Hsh. cbn [mbind result_bind getattr].
  change (map (fun star => fit_params (comparer_fit (drawStar self' star))) sts)
    with (map (remeasure self') sts).
  unfold np_zip2. rewrite decide_True by (by rewrite shape_remeasure, HT).
  cbn [mbind result_bind]. unfold np_mul_rows.
  destruct (map (map np_square) (zip_with (zip_with fsub) (map (remeasure self') sts) T))
    as [|r0 rs] eqn:Hrows.
  { exfalso. destruct sts as [|s sts]; [congruence|].
    destruct T as [|t T]; [discriminate HT|]. discriminate Hrows. }
  rewrite decide_True.
  2:{ rewrite <- Hrows, Hw'.
      eapply rows_aligned; [apply shape_remeasure|exact HT|exact Hw]. }
  cbn [mbind result_bind]. rewrite <- Hrows. unfold objective.
  rewrite residual_rows, np_size_dof, Hw'. reflexivity.
Qed.

Lemma same_frame_refl (self : PSF) : same_frame self self.
Proof. repeat split. Qed.

Lemma same_frame_trans (a b c : PSF) : same_frame a b -> same_frame b c -> same_frame a c.
Proof.
  unfold same_frame. intros Hab Hbc.
  destruct Hab as (?&?&?&?&?&?&?&?&?&?&?), Hbc as (?&?&?&?&?&?&?&?&?&?&?).
  repeat split; congruence.
Qed.

(** The search: every value it records is the objective against the same
    targets, and it makes at most [ncall] calls. *)
Lemma migrad_spec (kw : gmap string (pyval F)) (sts : list Star) (T : list (list F))
    (ncall : nat) :
  sts <> [] -> shape T = replicate (length sts) descriptor_dim ->
  forall (seen : list (list F * F)) (self : PSF),
    ready self -> _stars self = Some sts -> _shapes self = Some T ->
    exists run self' new,
      migrad kw ncall seen self = Ok (run, self') /\
      is_8x3 (misalignment (interp self')) /\ same_frame self self' /\
      calls run = (seen ++ new)%list /\ (length new <= ncall)%nat /\
      (migrad_ok run = false -> length new = ncall) /\
      (migrad_ok run = true <-> migrad_next kw (calls run) = None) /\
      Forall (evaluation_of self sts T) new /\
      values run = minuit_values kw (calls run) /\
      fitarg run = minuit_fitarg kw (calls run).
Proof.
  intros Hne HT. induction ncall as [|n IH]; intros seen self Hr Hst Hsh.
  - simpl. destruct (migrad_next kw seen) as [xs|] eqn:Hnext.
    + eexists _, self, []. rewrite app_nil_r.
      split; [reflexivity|]. simpl. rewrite Hnext. split; [apply Hr|].
      split; [apply same_frame_refl|].
      split; [reflexivity|]. split; [lia|]. split; [reflexivity|].
      split; [split; discriminate|]. split; [constructor|]. by split.
    + eexists _, self, []. rewrite app_nil_r.
      split; [reflexivity|]. simpl. rewrite Hnext. split; [apply Hr|].
      split; [apply same_frame_refl|].
      split; [reflexivity|]. split; [lia|]. split; [discriminate|].
      split; [by split|]. split; [constructor|]. by split.
  - simpl. destruct (migrad_next kw seen) as [xs|] eqn:Hnext.
    + pose proof (migrad_next_arity _ _ _ Hnext) as Hxs.
      destruct (fit_func_objective self xs sts T Hr Hxs Hst Hne Hsh HT) as (self1 & Hu & Hf).
      rewrite Hf. cbn [mbind result_bind fst snd].
      pose proof (update_psf_params_frame _ _ _ Hu) as Hfr.
      destruct (update_psf_params_installed self (list_to_map (zip param_names xs)) (proj1 Hr))
        as (self1' & Hu' & H8 & _).
      rewrite Hu in Hu'. injection Hu' as <-.
      assert (Hr1 : ready self1).
      { split; [exact H8|]. destruct Hfr as (-> & _). apply Hr. }
      assert (Hst1 : _stars self1 = Some sts).
      { destruct Hfr as (_&_&_&_&_&_&_&->&_). exact Hst. }
      assert (Hsh1 : _shapes self1 = Some T).
      { destruct Hfr as (_&_&_&_&_&_&_&_&->&_). exact Hsh. }
      destruct (IH (seen ++ [(xs, objective (weights self) (map (remeasure self1) sts) T)])%list
                   self1 Hr1 Hst1 Hsh1)
        as (run & self' & new & Hm & H8' & Hfr' & Hc & Hl & Hex & Hok & Hall & Hv & Hfa).
      exists run, self', ((xs, objective (weights self) (map (remeasure self1) sts) T) :: new).
      split; [exact Hm|]. split; [exact H8'|].
      split; [exact (same_frame_trans _ _ _ Hfr Hfr')|].
      split; [by rewrite Hc, <- app_assoc|].
      split; [simpl; lia|].
      split; [intros Hno; simpl; by rewrite (Hex Hno)|].
      split; [exact Hok|].
      split; [|by split].
      constructor; [by exists self, self1|].
      destruct Hfr as (Hw & _). unfold evaluation_of in *. rewrite Hw in Hall. exact Hall.
    + eexists _, self, []. rewrite app_nil_r.
      split; [reflexivity|]. simpl. rewrite Hnext. split; [apply Hr|].
      split; [apply same_frame_refl|].
      split; [reflexivity|]. split; [lia|]. split; [discriminate|].
      split; [by split|]. split; [constructor|]. by split.
Qed.

(** [fit], step by step. *)
Lemma fit_spec (self : PSF) (obs : list Star) (w : Wcs) (p : Pointing)
    (chisq_threshold : F) (max_iterations : nat) (skip_fit : bool)
    (logger : option (list log_record)) :
  ready self -> obs <> [] ->
  exists run self1 self',
    migrad (minuit_kwargs self) max_iterations []
      (with_targets (set_inputs self obs w p) obs) = Ok (run, self1) /\
    fit self obs w p chisq_threshold max_iterations skip_fit logger
      = Ok (PyNone, self', opening_log logger (length obs)) /\
    (forall name, name ∈ param_names ->
       installed self' name =
         if feqb (arg (values run) name) (arg (values run) name)
         then Some (arg (values run) name) else installed self1 name) /\
    _minuit self' = Some run /\
    _fitarg self' = Some (fitarg run) /\
    kwargs_minuit self' = dict_update (kwargs_minuit self) (fitarg run) /\
    _stars self' = Some (map comparer_fit obs) /\
    _shapes self' = Some (map fit_params (map comparer_fit obs)) /\
    weights self' = weights self /\
    is_8x3 (misalignment (interp self')) /\
    (length (calls run) <= max_iterations)%nat /\
    (migrad_ok run = false -> length (calls run) = max_iterations) /\
    (migrad_ok run = true <-> migrad_next (minuit_kwargs self) (calls run) = None) /\
    Forall (evaluation_of self (map comparer_fit obs)
              (map fit_params (map comparer_fit obs))) (calls run).
Proof.
  intros Hr Hne.
  set (S := map comparer_fit obs). set (T := map fit_params S).
  set (self0 := with_targets (set_inputs self obs w p) obs).
  assert (HS : S <> []) by (subst S; destruct obs; [congruence|discriminate]).
  assert (Hr0 : ready self0) by exact Hr.
  destruct (migrad_spec (minuit_kwargs self) S T max_iterations HS (shape_targets obs)
              [] self0 Hr0 eq_refl eq_refl)
    as (run & self1 & new & Hm & H8 & Hfr & Hc & Hl & Hex & Hok & Hall & Hv & Hfa).
  simpl in Hc. subst new.
  destruct Hfr as (Hw & He & Hkm & Hmk & Hst & Hwc & Hpo & Hs_ & Hsh & Hmi & Hfa1).
  destruct (update_psf_params_installed (set_fitarg (set_minuit self1 run) (fitarg run))
              (values run) H8) as (self2 & Hu & H8' & Hfr2 & Hin).
  destruct Hfr2 as (Hw2 & He2 & Hkm2 & Hmk2 & Hst2 & Hwc2 & Hpo2 & Hs_2 & Hsh2 & Hmi2 & Hfa2).
  exists run, self1, (set_kwargs_minuit self2 (dict_update (kwargs_minuit self2) (fitarg run))).
  split; [exact Hm|]. split.
  { unfold fit. change (set_targets (set_inputs self obs w p) (map comparer_fit obs)
                          (map fit_params (map comparer_fit obs))) with self0.
    change (minuit_kwargs self0) with (minuit_kwargs self).
    rewrite Hm. cbn [mbind result_bind fst snd]. rewrite Hu. reflexivity. }
  split; [exact Hin|].
  split; [simpl; by rewrite Hmi2|].
  split; [simpl; by rewrite Hfa2|].
  split; [simpl; rewrite Hkm2; simpl; by rewrite Hkm|].
  split; [simpl; by rewrite Hs_2; simpl; rewrite Hs_|].
  split; [simpl; by rewrite Hsh2; simpl; rewrite Hsh|].
  split; [simpl; by rewrite Hw2; simpl; rewrite Hw|].
  split; [exact H8'|].
  split; [exact Hl|]. split; [exact Hex|]. split; [exact Hok|]. exact Hall.
Qed.


(** C3, as the code has it. Whether or not the search converged within its
    budget of calls, [fit] installs the values it ends with (a value that
    is NaN leaves what the last evaluation installed, never the value from
    before the fit) and keeps the search on the object as [_minuit]; it
    raises nothing, returns [None] and logs nothing beyond its opening
    record, so that an exhausted budget looks to the caller like a
    success. *)
Theorem fit_installs_final_values_and_stays_silent
    (self : PSF) (obs : list Star) (w : Wcs) (p : Pointing)
    (chisq_threshold : F) (max_iterations : nat) (skip_fit : bool)
    (logger : option (list log_record)) :
  ready self -> obs <> [] ->
  exists run self1 self',
    migrad (minuit_kwargs self) max_iterations []
      (with_targets (set_inputs self obs w p) obs) = Ok (run, self1) /\
    fit self obs w p chisq_threshold max_iterations skip_fit logger
      = Ok (PyNone, self', opening_log logger (length obs)) /\
    silent_success (fit self obs w p chisq_threshold max_iterations skip_fit logger)
      logger (length obs) /\
    _minuit self' = Some run /\
    (migrad_ok run = false -> length (calls run) = max_iterations) /\
    (forall name, name ∈ param_names -> arg (values run) name <> fnan ->
       installed self' name = Some (arg (values run) name)) /\
    (forall name, name ∈ param_names -> arg (values run) name = fnan ->
       installed self' name = installed self1 name).
Proof.
  intros Hr Hne.
  destruct (fit_spec self obs w p chisq_threshold max_iterations skip_fit logger Hr Hne)
    as (run & self1 & self' & Hm & Hfit & Hin & Hmi & _ & _ & _ & _ & _ & _ & _ & Hex & _).
  exists run, self1, self'. split; [exact Hm|]. split; [exact Hfit|].
  split; [by exists self'|]. split; [exact Hmi|]. split; [exact Hex|]. split.
  - intros name Hn Hv. rewrite (Hin name Hn), (feqb_refl _ Hv). reflexivity.
  - intros name Hn Hv. rewrite (Hin name Hn), Hv, feqb_nan. reflexivity.
Qed.

(** C9. [fit] never reads [skip_fit] nor [chisq_threshold]: two calls that
    differ in them only give the same result, the same object and the same
    log. With [skip_fit] true the search is run all the same, with
    [max_iterations] as its budget of calls: it stops when Minuit stops of
    its own accord or when the budget is spent. *)
Theorem fit_ignores_skip_fit_and_chisq_threshold
    (self : PSF) (obs : list Star) (w : Wcs) (p : Pointing)
    (max_iterations : nat) (logger : option (list log_record)) :
  (forall (threshold1 threshold2 : F) (skip1 skip2 : bool),
     fit self obs w p threshold1 max_iterations skip1 logger
     = fit self obs w p threshold2 max_iterations skip2 logger) /\
  (ready self -> obs <> [] ->
   forall chisq_threshold : F,
   exists run self1 self',
     migrad (minuit_kwargs self) max_iterations []
       (with_targets (set_inputs self obs w p) obs) = Ok (run, self1) /\
     fit self obs w p chisq_threshold max_iterations true logger
       = Ok (PyNone, self', opening_log logger (length obs)) /\
     _minuit self' = Some run /\
     (length (calls run) <= max_iterations)%nat /\
     (migrad_ok run = false -> length (calls run) = max_iterations) /\
     (migrad_ok run = true <-> migrad_next (minuit_kwargs self) (calls run) = None)).
Proof.
  split; [reflexivity|]. intros Hr Hne chisq_threshold.
  destruct (fit_spec self obs w p chisq_threshold max_iterations true logger Hr Hne)
    as (run & self1 & self' & Hm & Hfit & _ & Hmi & _ & _ & _ & _ & _ & _ & Hl & Hex & Hok & _).
  exists run, self1, self'. repeat split; try assumption; apply Hok.
Qed.

(** *** The weight vector is assigned once *)

Lemma fit_func_weights (self self' : PSF) (xs : list F) (v : F) :
  _fit_func self xs = Ok (v, self') -> weights self' = weights self.
Proof.
  unfold _fit_func. destruct (bind_positional xs) as [a|]; [|discriminate].
  cbn [mbind result_bind].
  destruct (update_psf_params self a) as [s|] eqn:Hu; [|discriminate].
  cbn [mbind result_bind]. destruct (getattr (_stars s)); [|discriminate].
  cbn [mbind result_bind]. destruct (getattr (_shapes s)); [|discriminate].
  cbn [mbind result_bind]. destruct (np_zip2 _ _ _); [|discriminate].
  cbn [mbind result_bind]. destruct (np_mul_rows _ _); [|discriminate].
  cbn [mbind result_bind]. intros [= _ <-].
  by destruct (update_psf_params_frame _ _ _ Hu) as (-> & _).
Qed.

Lemma migrad_weights (kw : gmap string (pyval F)) (ncall : nat) :
  forall (seen : list (list F * F)) (self self' : PSF) (run : MinuitRun F),
    migrad kw ncall seen self = Ok (run, self') -> weights self' = weights self.
Proof.
  induction ncall as [|n IH]; intros seen self self' run; simpl;
    destruct (migrad_next kw seen) as [xs|]; try (by intros [= _ <-]).
  destruct (_fit_func self xs) as [[v s]|] eqn:Hf; [|discriminate].
  cbn [mbind result_bind fst snd]. intros Hm.
  rewrite (IH _ _ _ _ Hm). exact (fit_func_weights _ _ _ _ Hf).
Qed.

Lemma fit_weights (self self' : PSF) (obs : list Star) (w : Wcs) (p : Pointing)
    (chisq_threshold : F) (max_iterations : nat) (skip_fit : bool)
    (logger logger' : option (list log_record)) (r : pyval F) :
  fit self obs w p chisq_threshold max_iterations skip_fit logger = Ok (r, self', logger') ->
  weights self' = weights self.
Proof.
  unfold fit.
  destruct (migrad _ _ _ _) as [[run s]|] eqn:Hm; [|discriminate].
  cbn [mbind result_bind fst snd].
  destruct (update_psf_params _ _) as [s2|] eqn:Hu; [|discriminate].
  cbn [mbind result_bind]. intros [= _ <- _]. simpl.
  destruct (update_psf_params_frame _ _ _ Hu) as (-> & _). simpl.
  exact (migrad_weights _ _ _ _ _ _ Hm).
Qed.

Lemma init_weights (interp0 : DECamWavefront F) (model0 : Optical F)
    (extra : option (list string)) (w : list F) (kw : gmap string (pyval F)) (self : PSF) :
  __init__ interp0 model0 extra w kw = Ok self ->
  weights self = map (fun x => fdiv x (np_sum w)) w /\
  minuit_kwargs self = dict_update (dict_of_literal minuit_kwargs_literal) kw.
Proof.
  unfold __init__. destruct (bind_kwargs _) as [a|]; [|discriminate].
  cbn [mbind result_bind]. intros Hu.
  destruct (update_psf_params_frame _ _ _ Hu) as (-> & _ & _ & -> & _). by split.
Qed.

(** *** The order of the stars *)

Lemma concat_permutation {A : Type} (l l' : list (list A)) :
  Permutation l l' -> Permutation (concat l) (concat l').
Proof.
  intros Hp. induction Hp as [|x l l' Hp IH|x y l|l l' l'' Hp IH Hp' IH']; simpl.
  - reflexivity.
  - by apply Permutation_app_head.
  - rewrite !app_assoc. apply Permutation_app_tail, Permutation_app_comm.
  - by etransitivity.
Qed.

Lemma rows_measured (w : list F) (r : Star -> list F) (obs : list Star) :
  zip_with (weighted_residuals w) (map r (map comparer_fit obs))
    (map fit_params (map comparer_fit obs))
  = map (fun o => weighted_residuals w (r (comparer_fit o)) (fit_params (comparer_fit o))) obs.
Proof. induction obs as [|o obs IH]; simpl; [reflexivity|]. by rewrite IH. Qed.

(** C6, as the code has it. In an arithmetic without rounding (addition
    commutative and associative), the objective takes the same value on a
    list of stars and on every permutation of it. *)
Theorem objective_permutation_invariant_in_exact_arithmetic
    (self : PSF) (obs obs' : list Star) (xs : list F) :
  exact_addition F -> ready self -> obs <> [] ->
  length xs = length param_names -> Permutation obs obs' ->
  exists (v : F) (s s' : PSF),
    _fit_func (with_targets self obs) xs = Ok (v, s) /\
    _fit_func (with_targets self obs') xs = Ok (v, s').
Proof.
  intros Hex Hr Hne Hxs Hp.
  assert (Hne' : obs' <> []).
  { intros ->. apply Permutation_nil_r in Hp. contradiction. }
  assert (HS : forall o : list Star, o <> [] -> map comparer_fit o <> []).
  { intros [|? ?] Ho; [congruence|discriminate]. }
  destruct (fit_func_objective (with_targets self obs) xs _ _ Hr Hxs eq_refl (HS _ Hne)
              eq_refl (shape_targets obs)) as (s & Hu & Hf).
  destruct (fit_func_objective (with_targets self obs') xs _ _ Hr Hxs eq_refl (HS _ Hne')
              eq_refl (shape_targets obs')) as (s' & Hu' & Hf').
  destruct (update_psf_params_local (with_targets self obs) (with_targets self obs') s s' _
              eq_refl eq_refl Hu Hu') as [Hi Hm].
  assert (Hre : forall o, remeasure s o = remeasure s' o).
  { intros o. unfold remeasure, drawStar. by rewrite Hi, Hm. }
  eexists _, s, s'. split; [exact Hf|]. rewrite Hf'. do 2 f_equal.
  unfold objective. cbn [with_targets set_targets weights].
  rewrite !dof_remeasure, !length_map, (Permutation_length Hp). f_equal.
  rewrite !rows_measured. symmetry.
  rewrite (map_ext _ (fun o => weighted_residuals (weights self)
                                 (remeasure s' (comparer_fit o))
                                 (fit_params (comparer_fit o)))).
  2:{ intros o. by rewrite Hre. }
  apply np_sum_permutation; [exact Hex|].
  apply concat_permutation. by apply Permutation_map.
Qed.
End JointMode.

(** The sum of the normalized weights, without rounding. *)
Lemma exact_normalized_sum {F : Type} {num : PyNum F} (w : list F) :
  exact_addition F -> exact_division F -> fltb fzero (np_sum w) = true ->
  np_sum (map (fun x => fdiv x (np_sum w)) w) = fone.
Proof.
  intros Hex (Hdist & Hzero & Hone) Hpos. set (s := np_sum w) in *.
  assert (Hfold : forall l acc,
             fold_left fadd (map (fun x => fdiv x s) l) (fdiv acc s)
             = fdiv (fold_left fadd l acc) s).
  { induction l as [|x l IH]; intros acc; simpl; [reflexivity|].
    rewrite Hdist. apply IH. }
  rewrite (np_sum_exact _ Hex), length_map.
  set (z := if decide (length w < 8)%nat then fadd fzero fzero else fzero).
  assert (Hz : z = fdiv z s).
  { subst z. destruct (decide _); rewrite <- ?Hdist, (Hzero s Hpos); reflexivity. }
  rewrite Hz, Hfold. subst z. rewrite <- (np_sum_exact _ Hex). fold s. by apply Hone.
Qed.

(** C8, as the code has it. The constructor stores the weight vector divided
    by its sum: this sums to 1 in an arithmetic without rounding when the sum
    is positive, and to exactly 1.0 in binary64 for the default [0.5, 1, 1],
    whose first (size) component is then strictly smaller than each of the two
    shape components. No later operation ([update_psf_params], the objective
    [_fit_func], [fit]; [drawStar] returns a star and no object) changes the
    stored vector. *)
Theorem weights_normalized_once_and_kept :
  (forall (F : Type) (num : PyNum F) (Star Wcs Pointing : Type)
          (interp0 : DECamWavefront F) (model0 : Optical F) (extra : option (list string))
          (w : list F) (kw : gmap string (pyval F))
          (self : DECamWavefrontPSF F Star Wcs Pointing),
     __init__ interp0 model0 extra w kw = Ok self ->
     weights self = map (fun x => fdiv x (np_sum w)) w) /\
  (forall (F : Type) (num : PyNum F) (w : list F),
     exact_addition F -> exact_division F -> fltb fzero (np_sum w) = true ->
     np_sum (map (fun x => fdiv x (np_sum w)) w) = fone) /\
  (forall (F : Type) (num : PyNum F) (Star Wcs Pointing : Type)
          (col : Collaborators F Star) (opt : Minuit F)
          (self self' : DECamWavefrontPSF F Star Wcs Pointing),
     (forall a, update_psf_params self a = Ok self' -> weights self' = weights self) /\
     (forall xs v, _fit_func self xs = Ok (v, self') -> weights self' = weights self) /\
     (forall obs w p threshold budget skip logger r logger',
        fit self obs w p threshold budget skip logger = Ok (r, self', logger') ->
        weights self' = weights self)) /\
  (exists size shape1 shape2 : float,
     map (fun x => fdiv x (np_sum default_weights)) default_weights = [size; shape1; shape2] /\
     np_sum [size; shape1; shape2] = fone /\
     fltb size shape1 = true /\ fltb size shape2 = true).
Proof.
  split; [|split; [|split]].
  - intros F num Star Wcs Pointing interp0 model0 extra w kw self Hinit.
    exact (proj1 (init_weights _ _ _ _ _ _ Hinit)).
  - intros F num w. apply exact_normalized_sum.
  - intros F num Star Wcs Pointing col opt self self'. split; [|split].
    + intros a Hu. by destruct (update_psf_params_frame _ _ _ Hu) as (-> & _).
    + intros xs v. apply fit_func_weights.
    + intros obs w p threshold budget skip logger r logger'. apply fit_weights.
  - eexists _, _, _. split; [vm_compute; reflexivity|]. by vm_compute.
Qed.

(** C10. The mapping that the constructor builds when [minuit_kwargs] is left
    at its default holds, for every Zernike row N of 04..11, the parameter
    zNy and the step sizes error_zNd and error_zNx, but no error_zNy: the dict
    display writes the key error_zNx twice, the second time on the line of
    zNy. *)
Theorem default_minuit_kwargs_lack_y_step_sizes {F : Type} {num : PyNum F} :
  let d := dict_update (dict_of_literal (minuit_kwargs_literal (F := F))) ∅ in
  Forall (fun N =>
            is_Some (d !! ("z" +:+ N +:+ "y")) /\
            is_Some (d !! ("error_z" +:+ N +:+ "d")) /\
            is_Some (d !! ("error_z" +:+ N +:+ "x")) /\
            d !! ("error_z" +:+ N +:+ "y") = None /\
            occurrences ("error_z" +:+ N +:+ "x") (minuit_kwargs_literal (F := F)) = 2%nat /\
            occurrences ("error_z" +:+ N +:+ "y") (minuit_kwargs_literal (F := F)) = 0%nat)
         zernike_rows.
Proof.
  intros d. subst d. unfold zernike_rows.
  repeat (apply Forall_cons; split; [vm_compute; repeat split; eexists; reflexivity|]).
  constructor.
Qed.

(** ** Iterative mode: the loop [iterate] *)

Section IterativeMode.
Context {F : Type} {num : PyNum F} {Star Interp : Type} {env : IterativeEnv F Star Interp}.

(** The passes of the loop: each but the last fails the test, the previous
    chi-square of a pass is the chi-square of the pass before it, and a last
    pass before the cap passes the test. *)
Lemma iterate_loop_spec (n : nat) :
  forall (stars : list Star) (interp : Interp) (old : F),
    let trace := (iterate_loop n stars interp old).1 in
    (length trace <= n)%nat /\
    (n <> 0%nat -> trace <> []) /\
    (forall it, head trace = Some it -> oldchisq it = old) /\
    (forall k it it', trace !! k = Some it -> trace !! (S k) = Some it' ->
       converged it = false /\ oldchisq it' = chisq it) /\
    (forall k it, trace !! k = Some it -> converged it = true -> S k = length trace) /\
    (forall k it, trace !! k = Some it -> S k = length trace -> (S k < n)%nat ->
       converged it = true).
Proof.
  induction n as [|n IH]; intros stars interp old; simpl.
  - repeat split; try done; try lia.
  - set (stars' := map mod_reflux
                     (interp_interpolateList (interp_solve interp (map mod_fit stars))
                        (map mod_fit stars))).
    set (it0 := {| oldchisq := old; chisq := sum_chisq stars'; dof := sum_dof stars' |}).
    destruct (converged it0) eqn:Hc; simpl.
    + split; [lia|]. split; [done|]. split; [by intros it [= <-]|].
      split; [intros k it it' _ Hk; destruct k; discriminate|].
      split; [intros [|k] it Hk _; [reflexivity|discriminate]|].
      intros [|k] it Hk _ _; [by injection Hk as <-|discriminate].
    + specialize (IH stars' (interp_solve interp (map mod_fit stars)) (chisq it0)).
      simpl in IH. destruct IH as (Hl & Hne & Hhd & Hstep & Hstop & Hlast).
      set (tr := (iterate_loop n stars' (interp_solve interp (map mod_fit stars))
                    (sum_chisq stars')).1) in *.
      split; [lia|]. split; [done|]. split; [by intros it [= <-]|].
      split; [|split].
      * intros [|k] it it' Hk Hk'; simpl in Hk, Hk'.
        -- injection Hk as <-. split; [exact Hc|].
           apply Hhd. by rewrite head_lookup.
        -- by apply (Hstep k).
      * intros [|k] it Hk Hcv; simpl in Hk.
        -- injection Hk as <-. congruence.
        -- f_equal. by apply (Hstop k it).
      * intros [|k] it Hk Hlen Hlt; simpl in Hk.
        -- exfalso. injection Hlen as Hlen.
           destruct n as [|n']; [lia|]. symmetry in Hlen.
           apply length_zero_iff_nil in Hlen. by apply Hne.
        -- injection Hlen as Hlen. apply (Hlast k it Hk Hlen). lia.
Qed.

(** The chi-square and the degrees of freedom that a pass records are those
    of the stars after that many passes of the loop body, and the loop hands
    back the stars and the interpolator of its last pass. *)
Lemma iterate_loop_passes (n : nat) :
  forall (stars : list Star) (interp : Interp) (old : F),
    (iterate_loop n stars interp old).2
    = Nat.iter (length (iterate_loop n stars interp old).1) pass (stars, interp) /\
    forall k it, (iterate_loop n stars interp old).1 !! k = Some it ->
      chisq it = sum_chisq (Nat.iter (S k) pass (stars, interp)).1 /\
      dof it = sum_dof (Nat.iter (S k) pass (stars, interp)).1.
Proof.
  induction n as [|n IH]; intros stars interp old; [by split|].
  cbn [iterate_loop]. cbv zeta.
  set (stars' := map mod_reflux
                   (interp_interpolateList (interp_solve interp (map mod_fit stars))
                      (map mod_fit stars))).
  set (interp' := interp_solve interp (map mod_fit stars)).
  change (stars', interp') with (pass (stars, interp)).
  assert (Hpass : pass (stars, interp) = (stars', interp')) by reflexivity.
  destruct (converged _) eqn:Hc; cbn [fst snd length].
  - split; [reflexivity|].
    intros [|k] it Hk; [|discriminate]. injection Hk as <-. split; reflexivity.
  - destruct (IH stars' interp' (sum_chisq stars')) as [Hfin Hval].
    split.
    + rewrite Nat.iter_succ_r, Hpass. exact Hfin.
    + intros [|k] it Hk; cbn [lookup list_lookup] in Hk.
      * injection Hk as <-. split; reflexivity.
      * rewrite (Nat.iter_succ_r (S k)), Hpass. by apply Hval.
Qed.

(** C7. Whatever the stars, [iterate] either fails on its opening division
    (total degrees of freedom 0) before any pass, or makes between 1 and 10
    passes of the loop body and ends with the stars and the interpolator of
    the last one. The chi-square and the degrees of freedom of a pass are
    the sums over the stars after it; its previous chi-square is 0 on the
    first pass and the chi-square of the pass before on the others. A pass
    on which the previous chi-square is positive and the absolute change of
    chi-square is below the degrees of freedom divided by 10 is the last
    one; and when the loop ends before its tenth pass, both hold on its
    last pass. *)
Theorem iterate_stops_at_cap_or_convergence (stars : list Star) (interp : Interp) :
  match iterate stars interp with
  | Raise e => e = ZeroDivisionError /\ sum_dof stars = 0
  | Ok (trace, final) =>
      (1 <= length trace <= 10)%nat /\
      final = Nat.iter (length trace) pass (stars, interp) /\
      (forall k it, trace !! k = Some it ->
         chisq it = sum_chisq (Nat.iter (S k) pass (stars, interp)).1 /\
         dof it = sum_dof (Nat.iter (S k) pass (stars, interp)).1 /\
         oldchisq it = match k with
                       | O => fzero
                       | S _ => sum_chisq (Nat.iter k pass (stars, interp)).1
                       end) /\
      (forall k it, trace !! k = Some it ->
         fltb fzero (oldchisq it) = true ->
         fltb (fabs (fsub (oldchisq it) (chisq it))) (fdiv (of_Z (dof it)) (of_Z 10)) = true ->
         S k = length trace) /\
      (forall k it, trace !! k = Some it -> S k = length trace -> (S k < 10)%nat ->
         fltb fzero (oldchisq it) = true /\
         fltb (fabs (fsub (oldchisq it) (chisq it))) (fdiv (of_Z (dof it)) (of_Z 10)) = true)
  end.
Proof.
  unfold iterate. destruct (decide (sum_dof stars = 0)) as [Hz|Hz]; [by split|].
  pose proof (iterate_loop_spec 10 stars interp fzero) as Hspec. cbv zeta in Hspec.
  pose proof (iterate_loop_passes 10 stars interp fzero) as [Hfin Hval].
  destruct (iterate_loop 10 stars interp fzero) as [trace final].
  cbn [fst snd] in Hspec, Hfin, Hval.
  destruct Hspec as (Hl & Hne & Hhd & Hstep & Hstop & Hlast).
  split; [|split; [exact Hfin|split; [|split]]].
  - split; [|exact Hl]. destruct trace; [by exfalso; apply Hne|simpl; lia].
  - intros k it Hk. destruct (Hval k it Hk) as [Hchi Hdof].
    split; [exact Hchi|]. split; [exact Hdof|].
    destruct k as [|k].
    + apply Hhd. by rewrite head_lookup.
    + destruct (lookup_lt_is_Some_2 trace k) as [it0 Hk0].
      { apply lookup_lt_Some in Hk. lia. }
      rewrite (proj2 (Hstep k it0 it Hk0 Hk)). exact (proj1 (Hval k it0 Hk0)).
  - intros k it Hk Hpos Hsmall. apply (Hstop k it Hk).
    unfold converged. by rewrite Hpos, Hsmall.
  - intros k it Hk Hlen Hlt. apply andb_true_iff. by apply (Hlast k it Hk Hlen Hlt).
Qed.
End IterativeMode.

(** ** The interpolators *)

Section InterpolatorContracts.
Context {F : Type} {num : PyNum F} {gp : GaussianProcess F}.

Lemma insert_by_elem (d : nat -> F) (a j : nat) (l : list nat) :
  j ∈ insert_by d a l -> j = a \/ j ∈ l.
Proof.
  induction l as [|b l IH]; simpl.
  - intros Hj. apply list_elem_of_singleton in Hj. by left.
  - destruct (fltb (d b) (d a)).
    + intros Hj. apply elem_of_cons in Hj as [->|Hj]; [right; left|].
      destruct (IH Hj) as [->|Hjl]; [by left|right; by right].
    + intros Hj. apply elem_of_cons in Hj as [->|Hj]; [by left|by right].
Qed.

Lemma sorted_elem (d : nat -> F) (l : list nat) (j : nat) :
  j ∈ foldr (insert_by d) [] l -> j ∈ l.
Proof.
  induction l as [|a l IH]; simpl; [done|].
  intros Hj. destruct (insert_by_elem _ _ _ _ Hj) as [->|Hj']; [left|right; auto].
Qed.

Lemma fltb_refl_false (a : F) : fltb a a = false.
Proof.
  destruct (fltb a a) eqn:E; [|reflexivity]. pose proof (fltb_asym _ _ E). congruence.
Qed.

(** The head of the index: when every other row is strictly farther than
    the row [i] or at the same distance and tied with it, the index starts
    with [i] or with a row tied with it. *)
Lemma nearest_head (d : nat -> F) (tie : nat -> Prop) (l : list nat) (i : nat) :
  i ∈ l ->
  (forall j, j ∈ l -> j <> i -> fltb (d i) (d j) = true \/ (d j = d i /\ tie j)) ->
  NoDup l ->
  exists h, head (foldr (insert_by d) [] l) = Some h /\ (h = i \/ (d h = d i /\ tie h)).
Proof.
  induction l as [|a l IH]; intros Hi Hfar Hnd; [by apply elem_of_nil in Hi|].
  apply NoDup_cons in Hnd as [Ha Hnd]. simpl.
  destruct (decide (a = i)) as [->|Hne].
  - exists i. split; [|by left].
    destruct (foldr (insert_by d) [] l) as [|b rest] eqn:Hs; [reflexivity|]. simpl.
    assert (Hb : b ∈ l) by (apply sorted_elem with d; rewrite Hs; left).
    assert (Hbi : b <> i) by (intros ->; contradiction).
    destruct (Hfar b ltac:(by right) Hbi) as [Hlt|[Heq _]].
    + by rewrite (fltb_asym _ _ Hlt).
    + by rewrite Heq, fltb_refl_false.
  - apply elem_of_cons in Hi as [Hi|Hi]; [congruence|].
    destruct IH as (h & Hh & Hcase); [exact Hi| |exact Hnd|].
    { intros j Hj. apply Hfar. by right. }
    destruct (foldr (insert_by d) [] l) as [|b rest]; [discriminate|].
    injection Hh as ->. simpl.
    assert (Hdh : d h = d i) by (destruct Hcase as [->|[Heq _]]; [reflexivity|exact Heq]).
    destruct (fltb (d h) (d a)) eqn:Hha.
    + exists h. by split.
    + exists a. split; [reflexivity|]. right.
      destruct (Hfar a ltac:(left) Hne) as [Hlt|Htie]; [|exact Htie].
      rewrite Hdh in Hha. congruence.
Qed.

Lemma traverse_lookup {A B : Type} (f : A -> result B) (l : list A) (bs : list B)
    (i : nat) (a : A) :
  traverse f l = Ok bs -> l !! i = Some a -> exists b, f a = Ok b /\ bs !! i = Some b.
Proof.
  revert bs i. induction l as [|x l IH]; intros bs i Ht Hi; [discriminate|].
  simpl in Ht. destruct (f x) as [b|] eqn:Hfx; [|discriminate].
  cbn [mbind result_bind] in Ht.
  destruct (traverse f l) as [bs'|] eqn:Htl; [|discriminate].
  cbn [mbind result_bind] in Ht. injection Ht as <-.
  destruct i as [|i]; simpl in Hi.
  - injection Hi as <-. by exists b.
  - destruct (IH bs' i eq_refl Hi) as (b' & Hb & Hl). by exists b'.
Qed.

(** C5, as the specification has it. With one neighbor, [interpolate] at a
    training star returns the stored target vector of that star, bit for
    bit, and keeps its coordinates and properties, provided that every
    other training point is, in the computed squared distance from the
    query, either strictly farther than the training point itself or at
    exactly the same computed distance with the same stored target
    vector. *)
Theorem knn_exact_recovery_at_nearest_point
    (knn0 knn : kNNInterp F) (training : list (StarRecord F)) (i : nat)
    (star : StarRecord F) (q : list F) :
  n_neighbors knn0 = 1%nat ->
  solve knn0 training = Ok knn ->
  training !! i = Some star ->
  attributes (attr_interp knn0) star = Ok q ->
  (forall j x, j <> i -> X knn !! j = Some x ->
     fltb (dist2 q q) (dist2 q x) = true \/
     (dist2 q x = dist2 q q /\ y knn !! j = y knn !! i)) ->
  exists t predicted,
    targets (attr_target knn0) star = Ok t /\
    y knn !! i = Some t /\
    knn_interpolate knn star = Ok predicted /\
    params predicted = Some t /\
    properties predicted = properties star.
Proof.
  intros Hk Hsolve Hi Hq Hfar. unfold solve in Hsolve.
  destruct (decide (length training < 2)%nat); [discriminate|].
  destruct (traverse (attributes (attr_interp knn0)) training) as [xs|] eqn:Hxs; [|discriminate].
  cbn [mbind result_bind] in Hsolve.
  destruct (traverse (targets (attr_target knn0)) training) as [ys|] eqn:Hys; [|discriminate].
  cbn [mbind result_bind] in Hsolve. injection Hsolve as <-. simpl in *.
  destruct (traverse_lookup _ _ _ _ _ Hxs Hi) as (q' & Hq' & Hxi).
  rewrite Hq in Hq'. injection Hq' as <-.
  destruct (traverse_lookup _ _ _ _ _ Hys Hi) as (t & Ht & Hyi).
  exists t. eexists. split; [exact Ht|]. split; [exact Hyi|]. split.
  { unfold knn_interpolate. simpl. rewrite Hq. cbn [mbind result_bind]. reflexivity. }
  split; [|reflexivity].
  simpl. rewrite Hk.
  destruct (nearest_head (distance_to q xs) (fun j => ys !! j = ys !! i)
              (seq 0 (length xs)) i) as (h & Hh & Hcase).
  - apply elem_of_seq. apply lookup_lt_Some in Hxi. lia.
  - intros j Hj Hne. unfold distance_to. rewrite Hxi.
    apply elem_of_seq in Hj. destruct (lookup_lt_is_Some_2 xs j ltac:(lia)) as [x Hx].
    rewrite Hx. by apply (Hfar j).
  - apply NoDup_seq.
  - assert (Hyh : ys !! h = Some t).
    { destruct Hcase as [->|[_ Heq]]; [exact Hyi|by rewrite Heq]. }
    unfold distance_order. destruct (foldr _ _ _) as [|h' rest]; [discriminate|].
    injection Hh as ->. simpl. rewrite Hyh. reflexivity.
Qed.

Lemma knn_round_trip (knn : kNNInterp F) (f : sink F) (name : string) :
  knn_read (knn_write knn f name) name = Ok (neighbor_state knn).
Proof.
  unfold knn_read, knn_write, sink in *. rewrite lookup_insert_eq.
  unfold read_matrix, read_names, read_indices. by vm_compute.
Qed.

(** Reading back what was written fits the regression again on the same
    data with the same hyperparameters. *)
Lemma gp_round_trip (st : RegressionState F) (f : sink F) (name : string) :
  gp_read (gp_write st f name) name
  = Ok {| rs_kernel := rs_kernel st; rs_theta := rs_theta st;
          rs_theta_optimized := rs_theta_optimized st;
          rs_X_train := rs_X_train st; rs_y_train := rs_y_train st;
          rs_y_train_mean := rs_y_train_mean st;
          rs_alpha := fitted_weights (rs_kernel st) (rs_theta_optimized st)
                        (rs_X_train st) (rs_y_train st) (rs_y_train_mean st);
          rs_npca := rs_npca st; rs_pca := rs_pca st |}.
Proof.
  unfold gp_read, gp_write, sink in *. rewrite lookup_insert_eq.
  unfold read_matrix, read_names, read_indices, read_vector.
  destruct st. by vm_compute.
Qed.

End InterpolatorContracts.

(** ** Concrete runs on the bench *)

Lemma bench_psf_ready {F : Type} {num : PyNum F} : ready (col := bench) (bench_psf (F := F)).
Proof. split; reflexivity. Qed.

Lemma in_param_names_z05x : "z05x" ∈ param_names.
Proof. unfold param_names. repeat constructor. Qed.

Lemma float_neq (a b : float) : PrimFloat.eqb a b = false -> PrimFloat.eqb a a = true -> a <> b.
Proof. intros Hab Haa ->. congruence. Qed.

Lemma some_float_neq (a b : float) :
  PrimFloat.eqb a b = false -> PrimFloat.eqb a a = true -> Some a <> Some b.
Proof. intros Hab Haa Heq. injection Heq as ->. congruence. Qed.

Lemma some_floats_neq (a b : float) (l l' : list float) :
  PrimFloat.eqb a b = false -> PrimFloat.eqb a a = true -> Some (a :: l) <> Some (b :: l').
Proof. intros Hab Haa Heq. injection Heq as -> _. congruence. Qed.

(** The constructor, run on the default arguments in binary64. *)
Lemma init_default_binary64 :
  __init__ flat_interp bare_model None default_weights ∅ = Ok (bench_psf (F := float)).
Proof. vm_compute. reflexivity. Qed.

(** A call that passes z05x only. *)
Lemma update_psf_params_partial_witness :
  exists self' : DECamWavefrontPSF float (float * float * float) unit unit,
    update_psf_params bench_psf {[ "z05x" := dec 25 100 ]} = Ok self' /\
    installed self' "z05x" = Some (dec 25 100) /\
    (forall other, other ∈ param_names -> other <> "z05x" ->
       installed self' other = installed bench_psf other).
Proof.
  destruct (update_psf_params_partial (bench_psf (F := float)) {[ "z05x" := dec 25 100 ]} eq_refl)
    as (self' & Hu & _ & Hval & Hone).
  exists self'. split; [exact Hu|]. split.
  - apply (Hval "z05x" in_param_names_z05x).
    apply float_neq; vm_compute; reflexivity.
  - exact (Hone "z05x" _ eq_refl).
Defined.


Lemma fit_installs_final_values_and_stays_silent_witness :
  silent_success
    (fit (col := bench) (opt := scripted [origin; unit_point; origin]) (bench_psf (F := float))
       [star_a; star_b] tt tt (dec 1 10) 2 false (Some []))
    (Some []) 2.
Proof.
  destruct (fit_installs_final_values_and_stays_silent
              (col := bench) (opt := scripted [origin; unit_point; origin])
              (bench_psf (F := float)) [star_a; star_b] tt tt (dec 1 10) 2 false (Some [])
              bench_psf_ready ltac:(discriminate))
    as (run & self1 & self' & _ & _ & Hsilent & _).
  exact Hsilent.
Defined.

(** C3, against the claim as stated: a search of three points with a budget
    of two calls is not converged; [fit] installs its last point (g1 goes from
    0 to 1) and hands the caller [None], without an exception and without a
    log record on the matter. *)
Lemma exhausted_budget_is_a_silent_success :
  silent_success (bench_fit (F := float) [origin; unit_point; origin] 2) (Some []) 2 /\
  match bench_fit (F := float) [origin; unit_point; origin] 2 with
  | Ok (_, self', _) =>
      migrad_ok <$> _minuit self' = Some false /\
      installed bench_psf "g1" = Some fzero /\
      installed self' "g1" = Some fone
  | Raise _ => False
  end.
Proof.
  split.
  - destruct (fit_spec (col := bench) (opt := scripted [origin; unit_point; origin])
                (bench_psf (F := float)) [star_a; star_b] tt tt (dec 1 10) 2 false (Some [])
                bench_psf_ready ltac:(discriminate))
      as (run & self1 & self' & _ & Hfit & _).
    by exists self'.
  - vm_compute. repeat split.
Qed.

Lemma fit_ignores_skip_fit_and_chisq_threshold_witness :
  fit (col := bench) (opt := scripted [origin; unit_point]) (bench_psf (F := float))
    [star_a; star_b] tt tt (dec 1 10) 300 true None
  = fit (col := bench) (opt := scripted [origin; unit_point]) (bench_psf (F := float))
      [star_a; star_b] tt tt (dec 5 10) 300 false None /\
  exists (run : MinuitRun float)
         (self' : DECamWavefrontPSF float (float * float * float) unit unit),
    fit (col := bench) (opt := scripted [origin; unit_point]) bench_psf
      [star_a; star_b] tt tt (dec 1 10) 300 true None = Ok (PyNone, self', None) /\
    _minuit self' = Some run /\ (length (calls run) <= 300)%nat.
Proof.
  destruct (fit_ignores_skip_fit_and_chisq_threshold
              (col := bench) (opt := scripted [origin; unit_point])
              (bench_psf (F := float)) [star_a; star_b] tt tt 300 None) as [Hsame Hrun].
  split; [apply Hsame|].
  destruct (Hrun bench_psf_ready ltac:(discriminate) (dec 1 10))
    as (run & self1 & self' & _ & Hfit & Hmi & Hl & _).
  exists run, self'. repeat split; assumption.
Defined.

(** The objective without rounding, on two stars and on the same two stars
    in the other order. *)
Lemma objective_permutation_invariant_witness :
  exists (v : option Qc) (s s' : DECamWavefrontPSF (option Qc) _ unit unit),
    _fit_func (col := bench) (with_targets (col := bench) bench_psf [star_a; star_b]) origin
      = Ok (v, s) /\
    _fit_func (col := bench) (with_targets (col := bench) bench_psf [star_b; star_a]) origin
      = Ok (v, s').
Proof.
  apply (objective_permutation_invariant_in_exact_arithmetic (col := bench)).
  - exact exact_addition_exact.
  - exact bench_psf_ready.
  - discriminate.
  - reflexivity.
  - apply perm_swap.
Defined.

(** C6, against the claim as stated: in binary64 the objective of the default
    object at the origin is 0.006999999999999999 on the stars a, b and 0.007
    on b, a. *)
Lemma objective_depends_on_star_order_in_binary64 :
  Permutation [star_a (F := float); star_b] [star_b; star_a] /\
  bench_objective [star_a; star_b] = Some 0.006999999999999999%float /\
  bench_objective [star_b; star_a] = Some 0.007%float /\
  bench_objective [star_a (F := float); star_b] <> bench_objective [star_b; star_a].
Proof.
  split; [apply perm_swap|].
  assert (Hab : bench_objective [star_a; star_b] = Some 0.006999999999999999%float)
    by (vm_compute; reflexivity).
  assert (Hba : bench_objective [star_b; star_a] = Some 0.007%float)
    by (vm_compute; reflexivity).
  split; [exact Hab|]. split; [exact Hba|].
  rewrite Hab, Hba. apply some_float_neq; vm_compute; reflexivity.
Qed.

(** The default weights without rounding. *)
Lemma weights_normalized_once_and_kept_witness :
  np_sum (map (fun x => fdiv x (np_sum default_weights)) (default_weights (F := option Qc)))
  = fone.
Proof.
  apply (proj1 (proj2 weights_normalized_once_and_kept) (option Qc) exact default_weights).
  - exact exact_addition_exact.
  - exact exact_division_exact.
  - vm_compute. reflexivity.
Defined.

(** C8, against the claim as stated: in binary64 the weights [0.1, 0.2, 0.3],
    of positive sum, are stored with the sum 0.9999999999999999. *)
Lemma normalized_weights_need_not_sum_to_one :
  exists self : DECamWavefrontPSF float (float * float * float) unit unit,
    __init__ flat_interp bare_model None [dec 1 10; dec 2 10; dec 3 10] ∅ = Ok self /\
    fltb fzero (np_sum [dec 1 10 : float; dec 2 10; dec 3 10]) = true /\
    np_sum (weights self) = 0.99999999999999989%float /\
    np_sum (weights self) <> fone.
Proof.
  eexists. split; [vm_compute; reflexivity|]. split; [vm_compute; reflexivity|].
  split; [vm_compute; reflexivity|].
  apply float_neq; vm_compute; reflexivity.
Qed.

(** A training set of three points, the first two at the same place with
    the same parameters, queried at the second. *)
Lemma knn_exact_recovery_witness :
  exists (knn : kNNInterp float) (predicted : StarRecord float),
    solve test_knn [twin_1; twin_1; far_star] = Ok knn /\
    knn_interpolate knn twin_1 = Ok predicted /\
    params predicted = params twin_1.
Proof.
  edestruct (knn_exact_recovery_at_nearest_point (F := float) test_knn)
    with (training := [twin_1 (F := float); twin_1; far_star]) (i := 1%nat)
         (star := twin_1 (F := float))
    as (t & predicted & Ht & Hy & Hi & Hp & _).
  - reflexivity.
  - vm_compute. reflexivity.
  - reflexivity.
  - vm_compute. reflexivity.
  - intros [|[|[|j]]] x Hj Hx; [| congruence | |discriminate].
    + right. vm_compute in Hx. injection Hx as <-. split; vm_compute; reflexivity.
    + left. vm_compute in Hx. injection Hx as <-. vm_compute. reflexivity.
  - eexists _, predicted. split; [vm_compute; reflexivity|]. split; [exact Hi|].
    vm_compute in Ht. injection Ht as <-. exact Hp.
Defined.

(** C5, against the claim as stated: two training stars at the same place
    with different parameters. On the model a query at the second returns
    the parameters of the first; and no interpolator whose prediction
    depends on the query through its interpolation attributes alone can
    return to each of the two its own parameters. *)
Lemma knn_twin_training_points_not_recovered :
  (exists (knn : kNNInterp float) (predicted : StarRecord float),
     solve test_knn [twin_1; twin_2] = Ok knn /\
     properties twin_2 = properties (twin_1 (F := float)) /\
     knn_interpolate knn twin_2 = Ok predicted /\
     params predicted = params twin_1 /\
     params predicted <> params twin_2) /\
  (forall interpolate : kNNInterp float -> StarRecord float -> result (StarRecord float),
     (forall knn s s' p p',
        attributes (attr_interp knn) s = attributes (attr_interp knn) s' ->
        interpolate knn s = Ok p -> interpolate knn s' = Ok p' -> params p = params p') ->
     forall knn p1 p2,
       interpolate knn twin_1 = Ok p1 -> interpolate knn twin_2 = Ok p2 ->
       ~ (params p1 = params twin_1 /\ params p2 = params twin_2)).
Proof.
  split.
  - eexists _, _. split; [vm_compute; reflexivity|]. split; [reflexivity|].
    split; [vm_compute; reflexivity|]. split; [vm_compute; reflexivity|].
    vm_compute. apply some_floats_neq; vm_compute; reflexivity.
  - intros interpolate Hdep knn p1 p2 H1 H2 [Hp1 Hp2].
    assert (Hsame : params p1 = params p2).
    { apply (Hdep knn twin_1 twin_2 p1 p2); [reflexivity|exact H1|exact H2]. }
    rewrite Hp1, Hp2 in Hsame. revert Hsame.
    apply some_floats_neq; vm_compute; reflexivity.
Qed.


(** ** Joint mode: successive calls, the life cycle of the object, refits *)

Section SuccessiveUpdates.
Context {F : Type} {num : PyNum F} {Star Wcs Pointing : Type}.
Context {col : Collaborators F Star} {opt : Minuit F}.
Abbreviation PSF := (DECamWavefrontPSF F Star Wcs Pointing).

Lemma shape_zip_with_same {A B C : Type} (f : A -> B -> C) (x : list (list A))
    (y : list (list B)) :
  shape x = shape y -> shape (zip_with (zip_with f) x y) = shape y.
Proof.
  unfold shape. revert y. induction x as [|r x IH]; intros [|s y] Hs; simpl in *;
    try discriminate; [reflexivity|].
  injection Hs as Hr Hs. rewrite (IH y Hs), length_zip_with. f_equal. lia.
Qed.

Lemma np_where_shape (cond : list (list bool)) (x y r : list (list F)) :
  np_where cond x y = Ok r -> shape y = shape x /\ shape r = shape x.
Proof.
  unfold np_where, np_zip2.
  destruct (decide (shape cond = shape x)) as [H1|]; [|discriminate].
  cbn [mbind result_bind].
  destruct (decide (shape (zip_with (zip_with pair) cond x) = shape y)) as [H2|];
    [|discriminate].
  intros [= <-]. rewrite (shape_zip_with_same _ _ _ H2), <- H2.
  split; exact (shape_zip_with_same _ _ _ H1).
Qed.

(** A call of [update_psf_params] returns only on an 8 by 3 array, and
    leaves one. *)
Lemma update_psf_params_shape (self self' : PSF) (a : gmap string F) :
  update_psf_params self a = Ok self' ->
  is_8x3 (misalignment (interp self)) /\ is_8x3 (misalignment (interp self')).
Proof.
  unfold update_psf_params.
  destruct (np_where _ _ _) as [r|] eqn:Hw; [|discriminate].
  cbn [mbind result_bind]. intros [= <-].
  apply np_where_shape in Hw as [Hy Hr]. unfold is_8x3. split.
  - exact Hy.
  - exact Hr.
Qed.

Lemma lookup_tabulated (f : string -> F) (l : list string) (name : string) :
  name ∈ l -> (list_to_map (map (fun n => (n, f n)) l) : gmap string F) !! name = Some (f name).
Proof.
  induction l as [|n l IH]; intros Hin; [by apply elem_of_nil in Hin|].
  simpl. destruct (decide (n = name)) as [->|Hne].
  - apply lookup_insert_eq.
  - rewrite lookup_insert_ne by exact Hne. apply IH.
    apply elem_of_cons in Hin. destruct Hin as [->|Hin]; [congruence|exact Hin].
Qed.

Lemma arg_later_wins (a b : gmap string F) (name : string) :
  name ∈ param_names ->
  arg (later_wins a b) name
  = if feqb (arg b name) (arg b name) then arg b name else arg a name.
Proof.
  intros Hin. unfold arg at 1, later_wins.
  by rewrite (lookup_tabulated
                (fun n => if feqb (arg b n) (arg b n) then arg b n else arg a n)).
Qed.

(** Selecting twice, entry by entry. *)
Lemma select_twice (x y old : F) :
  (if feqb y y then y else if feqb x x then x else old)
  = let m := if feqb y y then y else x in if feqb m m then m else old.
Proof. simpl. destruct (feqb y y) eqn:Ey; [by rewrite Ey|reflexivity]. Qed.

Lemma update_psf_params_ext (self : PSF) (a a' : gmap string F) :
  (forall name, name ∈ param_names -> arg a name = arg a' name) ->
  update_psf_params self a = update_psf_params self a'.
Proof.
  intros H. unfold update_psf_params.
  repeat match goal with
         | |- context [arg a ?n] =>
             rewrite (H n) by (unfold param_names; repeat constructor)
         end.
  reflexivity.
Qed.


Lemma model_compose (m : Optical F) (a b : gmap string F) :
  let step (c : gmap string F) (m : Optical F) :=
    let m := if feqb (arg c "r0") (arg c "r0")
             then {| kolmogorov_kwargs := <["r0" := arg c "r0"]> (kolmogorov_kwargs m);
                     g1 := g1 m; g2 := g2 m |}
             else m in
    let m := if feqb (arg c "g1") (arg c "g1")
             then {| kolmogorov_kwargs := kolmogorov_kwargs m; g1 := arg c "g1"; g2 := g2 m |}
             else m in
    if feqb (arg c "g2") (arg c "g2")
    then {| kolmogorov_kwargs := kolmogorov_kwargs m; g1 := g1 m; g2 := arg c "g2" |}
    else m in
  step b (step a m) = step (later_wins a b) m.
Proof.
  intros step. subst step. cbv beta zeta.
  rewrite !arg_later_wins by (unfold param_names; repeat constructor).
  destruct m as [kk mg1 mg2].
  destruct (feqb (arg b "r0") (arg b "r0")) eqn:Er;
    destruct (feqb (arg b "g1") (arg b "g1")) eqn:E1;
    destruct (feqb (arg b "g2") (arg b "g2")) eqn:E2;
    rewrite ?Er, ?E1, ?E2;
    destruct (feqb (arg a "r0") (arg a "r0"));
    destruct (feqb (arg a "g1") (arg a "g1"));
    destruct (feqb (arg a "g2") (arg a "g2"));
    cbn [kolmogorov_kwargs g1 g2]; rewrite ?insert_insert_eq; reflexivity.
Qed.

Lemma update_psf_params_compose_eq (self s1 : PSF) (a b : gmap string F) :
  is_8x3 (misalignment (interp self)) ->
  update_psf_params self a = Ok s1 ->
  update_psf_params s1 b = update_psf_params self (later_wins a b).
Proof.
  intros Hs.
  destruct (is_8x3_inv _ Hs)
    as (a0&a1&a2&b0&b1&b2&c0&c1&c2&d0&d1&d2&e0&e1&e2&f0&f1&f2&g0&g1&g2&h0&h1&h2&Hm).
  destruct self as [[mis] m w e km mk st wc po s_ sh mi fa].
  simpl in Hm. subst mis.
  unfold update_psf_params at 1, np_where, np_zip2.
  cbn [mbind result_bind set_model set_interp interp model misalignment weights
       extra_interp_properties kwargs_minuit minuit_kwargs stars wcs pointing
       _stars _shapes _minuit _fitarg].
  rewrite !decide_True by reflexivity.
  cbn [mbind result_bind]. intros [= <-].
  pose proof (model_compose m a b) as Hmodel. cbv zeta in Hmodel.
  unfold update_psf_params, np_where, np_zip2.
  cbn [set_model set_interp interp model misalignment weights
       extra_interp_properties kwargs_minuit minuit_kwargs stars wcs pointing
       _stars _shapes _minuit _fitarg].
  rewrite Hmodel.
  rewrite !decide_True by reflexivity.
  cbn [mbind result_bind zip_with np_eq_self map fst snd].
  rewrite !arg_later_wins by (unfold param_names; repeat constructor).
  rewrite <- !select_twice.
  reflexivity.
Qed.


Lemma arg_empty (name : string) : arg (∅ : gmap string F) name = fnan.
Proof. unfold arg. by rewrite lookup_empty. Qed.

Lemma update_psf_params_empty (self : PSF) :
  is_8x3 (misalignment (interp self)) -> update_psf_params self ∅ = Ok self.
Proof.
  intros Hs.
  destruct (is_8x3_inv _ Hs)
    as (a0&a1&a2&b0&b1&b2&c0&c1&c2&d0&d1&d2&e0&e1&e2&f0&f1&f2&g0&g1&g2&h0&h1&h2&Hm).
  destruct self as [[mis] [kk mg1 mg2] w e km mk st wc po s_ sh mi fa].
  simpl in Hm. subst mis.
  unfold update_psf_params, np_where, np_zip2, np_eq_self. rewrite !arg_empty.
  cbn [map]. rewrite !feqb_nan. reflexivity.
Qed.

Lemma update_psf_params_idem (self s1 : PSF) (a : gmap string F) :
  update_psf_params self a = Ok s1 -> update_psf_params s1 a = Ok s1.
Proof.
  intros Hu.
  pose proof (proj1 (update_psf_params_shape _ _ _ Hu)) as Hs.
  rewrite (update_psf_params_compose_eq self s1 a a Hs Hu), <- Hu.
  apply update_psf_params_ext. intros name Hn.
  rewrite (arg_later_wins a a name Hn). by destruct (feqb _ _).
Qed.

(** X1. Two calls of [update_psf_params] in a row amount to one call: on
    the 8 by 3 misalignment, a call with the arguments [a] followed by a call
    with the arguments [b] both return, and they leave the object exactly as
    the single call that passes, for each parameter, the value of [b] where
    it is not NaN and the value of [a] elsewhere. *)
Theorem update_psf_params_calls_compose (self : PSF) (a b : gmap string F) :
  is_8x3 (misalignment (interp self)) ->
  exists s1 s2,
    update_psf_params self a = Ok s1 /\
    update_psf_params s1 b = Ok s2 /\
    update_psf_params self (later_wins a b) = Ok s2.
Proof.
  intros Hs.
  destruct (update_psf_params_installed self a Hs) as (s1 & Hu1 & Hs1 & _).
  destruct (update_psf_params_installed s1 b Hs1) as (s2 & Hu2 & _).
  exists s1, s2. split; [exact Hu1|]. split; [exact Hu2|].
  by rewrite <- (update_psf_params_compose_eq self s1 a b Hs Hu1).
Qed.

(** X2. On the 8 by 3 misalignment, a call of [update_psf_params] in which
    every parameter is NaN or absent (no argument at all, or keywords that
    name no parameter) returns the object as it was, attribute for
    attribute; and a call repeated on its own result changes nothing
    more. *)
Theorem update_psf_params_noop_and_idempotent (self : PSF) :
  is_8x3 (misalignment (interp self)) ->
  (forall a : gmap string F,
     (forall name, name ∈ param_names -> arg a name = fnan) ->
     update_psf_params self a = Ok self) /\
  (forall (a : gmap string F) (s1 : PSF),
     update_psf_params self a = Ok s1 -> update_psf_params s1 a = Ok s1).
Proof.
  intros Hs. split.
  - intros a Ha. rewrite (update_psf_params_ext self a ∅).
    + by apply update_psf_params_empty.
    + intros name Hn. by rewrite arg_empty, Ha.
  - intros a s1 Hu. exact (update_psf_params_idem self s1 a Hu).
Qed.

End SuccessiveUpdates.

Section ObjectiveHistory.
Context {F : Type} {num : PyNum F} {Star Wcs Pointing : Type}.
Context {col : Collaborators F Star} {opt : Minuit F}.
Abbreviation PSF := (DECamWavefrontPSF F Star Wcs Pointing).

Lemma NoDup_param_names : NoDup param_names.
Proof. apply (bool_decide_unpack _). vm_compute. reflexivity. Qed.

(** A call with 27 positional values, none of them NaN, passes a value that
    equals itself for every parameter. *)
Lemma positional_not_nan (xs : list F) (name : string) :
  length xs = length param_names -> Forall (fun x => x <> fnan) xs ->
  name ∈ param_names ->
  feqb (arg (list_to_map (zip param_names xs)) name)
       (arg (list_to_map (zip param_names xs)) name) = true.
Proof.
  intros Hl Hxs Hin. apply feqb_refl.
  apply list_elem_of_lookup in Hin as [i Hi].
  destruct (lookup_lt_is_Some_2 xs i) as [x Hx].
  { rewrite Hl. by eapply lookup_lt_Some. }
  assert (Hlk : (list_to_map (zip param_names xs) : gmap string F) !! name = Some x).
  { apply elem_of_list_to_map_1.
    - rewrite fst_zip by lia. exact NoDup_param_names.
    - apply list_elem_of_lookup. exists i.
      rewrite lookup_zip_with, Hi. simpl. by rewrite Hx. }
  unfold arg. rewrite Hlk. simpl.
  rewrite Forall_forall in Hxs. apply Hxs. by eapply list_elem_of_lookup_2.
Qed.

(** When every value passed equals itself, what [update_psf_params]
    installs does not depend on what was installed before. *)
Lemma update_psf_params_overwrites (s1 s2 : PSF) (a : gmap string F) :
  same_objective s1 s2 ->
  (forall name, name ∈ param_names -> feqb (arg a name) (arg a name) = true) ->
  exists u1 u2,
    update_psf_params s1 a = Ok u1 /\ update_psf_params s2 a = Ok u2 /\
    interp u1 = interp u2 /\ model u1 = model u2.
Proof.
  intros (Hw & Hst & Hsh & Hkk & H1 & H2) Ha.
  destruct (is_8x3_inv _ H1)
    as (a0&a1&a2&b0&b1&b2&c0&c1&c2&d0&d1&d2&e0&e1&e2&f0&f1&f2&g0&g1_&g2_&h0&h1&h2&Hm1).
  destruct (is_8x3_inv _ H2)
    as (a0'&a1'&a2'&b0'&b1'&b2'&c0'&c1'&c2'&d0'&d1'&d2'&e0'&e1'&e2'&f0'&f1'&f2'&g0'&g1'&g2'&h0'&h1'&h2'&Hm2).
  destruct s1 as [[mis1] [kk1 mg11 mg21] w1 ex1 km1 mk1 st1 wc1 po1 s_1 sh1 mi1 fa1].
  destruct s2 as [[mis2] [kk2 mg12 mg22] w2 ex2 km2 mk2 st2 wc2 po2 s_2 sh2 mi2 fa2].
  simpl in *. subst mis1 mis2.
  unfold update_psf_params, np_where, np_zip2, np_eq_self. cbn [map].
  rewrite !Ha by (unfold param_names; repeat constructor).
  eexists _, _. split; [reflexivity|]. split; [reflexivity|].
  split; [reflexivity|]. simpl. f_equal.
  rewrite <- (insert_delete_eq kk1), <- (insert_delete_eq kk2). by rewrite Hkk.
Qed.

Lemma same_objective_updated (s1 s2 u1 u2 : PSF) (a b : gmap string F) :
  same_objective s1 s2 ->
  update_psf_params s1 a = Ok u1 -> update_psf_params s2 b = Ok u2 ->
  interp u1 = interp u2 -> model u1 = model u2 ->
  same_objective u1 u2.
Proof.
  intros (Hw & Hst & Hsh & Hkk & H1 & H2) Hu1 Hu2 Hi Hm.
  destruct (update_psf_params_installed s1 a H1) as (u1' & Hu1' & H81 & _).
  rewrite Hu1 in Hu1'. injection Hu1' as <-.
  destruct (update_psf_params_frame _ _ _ Hu1) as (Hw1&_&_&_&_&_&_&Hst1&Hsh1&_).
  destruct (update_psf_params_frame _ _ _ Hu2) as (Hw2&_&_&_&_&_&_&Hst2&Hsh2&_).
  unfold same_objective. rewrite Hw1, Hw2, Hst1, Hst2, Hsh1, Hsh2, <- Hm.
  repeat split; try assumption. by rewrite <- Hi.
Qed.

(** One evaluation of the objective on two objects that differ in the
    installed parameters only. *)
Lemma fit_func_forgets (s1 s2 : PSF) (xs : list F) :
  same_objective s1 s2 ->
  length xs = length param_names -> Forall (fun x => x <> fnan) xs ->
  exists u1 u2,
    interp u1 = interp u2 /\ model u1 = model u2 /\ same_objective u1 u2 /\
    ((exists v, _fit_func s1 xs = Ok (v, u1) /\ _fit_func s2 xs = Ok (v, u2)) \/
     (exists e, _fit_func s1 xs = Raise e /\ _fit_func s2 xs = Raise e)).
Proof.
  intros Hso Hl Hxs.
  destruct (update_psf_params_overwrites s1 s2 (list_to_map (zip param_names xs)) Hso)
    as (u1 & u2 & Hu1 & Hu2 & Hi & Hm).
  { intros name Hn. by apply positional_not_nan. }
  pose proof (same_objective_updated _ _ _ _ _ _ Hso Hu1 Hu2 Hi Hm) as Hso'.
  exists u1, u2. split; [exact Hi|]. split; [exact Hm|]. split; [exact Hso'|].
  destruct Hso' as (Hw & Hst & Hsh & _).
  unfold _fit_func. rewrite (bind_positional_ok _ Hl). cbn [mbind result_bind].
  rewrite Hu1, Hu2. cbn [mbind result_bind]. unfold drawStar.
  rewrite <- Hw, <- Hst, <- Hsh, <- Hi, <- Hm.
  destruct (getattr (_stars u1)) as [sts|e]; cbn [mbind result_bind]; [|right; by exists e].
  destruct (getattr (_shapes u1)) as [T|e]; cbn [mbind result_bind]; [|right; by exists e].
  destruct (np_zip2 fsub _ T) as [d|e]; cbn [mbind result_bind]; [|right; by exists e].
  destruct (np_mul_rows _ _) as [t|e]; cbn [mbind result_bind]; [|right; by exists e].
  left. eexists. split; reflexivity.
Qed.

(** X3. The objective is a function of its 27 arguments: when none of
    them is NaN, [_fit_func] returns the same value (or raises the same
    exception) on two objects that differ in the installed parameters only,
    and leaves the same optical model and misalignment installed on both.
    What was installed before the call, by the constructor or by an earlier
    evaluation, has no influence. *)
Theorem objective_ignores_previously_installed_parameters (s1 s2 : PSF) (xs : list F) :
  same_objective s1 s2 ->
  length xs = length param_names -> Forall (fun x => x <> fnan) xs ->
  match _fit_func s1 xs, _fit_func s2 xs with
  | Ok (v1, u1), Ok (v2, u2) => v1 = v2 /\ interp u1 = interp u2 /\ model u1 = model u2
  | Raise e1, Raise e2 => e1 = e2
  | _, _ => False
  end.
Proof.
  intros Hso Hl Hxs.
  destruct (fit_func_forgets s1 s2 xs Hso Hl Hxs)
    as (u1 & u2 & Hi & Hm & _ & [(v & -> & ->)|(e & -> & ->)]); [|reflexivity].
  by repeat split.
Qed.
End ObjectiveHistory.

Section LifeCycle.
Context {F : Type} {num : PyNum F} {Star Wcs Pointing : Type}.
Context {col : Collaborators F Star} {opt : Minuit F}.
Abbreviation PSF := (DECamWavefrontPSF F Star Wcs Pointing).

(** An object fresh from the constructor has no [_stars]. *)
Lemma init_fresh (interp0 : DECamWavefront F) (model0 : Optical F)
    (extra : option (list string)) (w : list F) (kw : gmap string (pyval F)) (self : PSF) :
  __init__ interp0 model0 extra w kw = Ok self ->
  is_8x3 (misalignment (interp self)) /\ kwargs_minuit self = kw /\
  stars self = None /\ _stars self = None /\ _shapes self = None /\ _minuit self = None.
Proof.
  unfold __init__. destruct (bind_kwargs _) as [a|]; [|discriminate].
  cbn [mbind result_bind]. intros Hu.
  destruct (update_psf_params_frame _ _ _ Hu) as (_&_&->&_&->&_&_&->&->&->&_).
  split; [exact (proj2 (update_psf_params_shape _ _ _ Hu))|]. by repeat split.
Qed.

(** X4. The objective cannot be evaluated on an object that [fit] has not
    prepared: on an object as the constructor returns it, a call of
    [_fit_func] with its 27 arguments raises AttributeError (the attribute
    [_stars] is assigned by [fit] only); the parameters passed have been
    installed by then. *)
Theorem objective_before_fit_raises_AttributeError
    (interp0 : DECamWavefront F) (model0 : Optical F) (extra : option (list string))
    (w : list F) (kw : gmap string (pyval F)) (self : PSF) (xs : list F) :
  __init__ interp0 model0 extra w kw = Ok self ->
  length xs = length param_names ->
  _fit_func self xs = Raise AttributeError /\
  exists self', update_psf_params self (list_to_map (zip param_names xs)) = Ok self' /\
    _stars self' = None.
Proof.
  intros Hinit Hl. destruct (init_fresh _ _ _ _ _ _ Hinit) as (H8 & _ & _ & Hst & _).
  destruct (update_psf_params_installed self (list_to_map (zip param_names xs)) H8)
    as (self' & Hu & _ & Hfr & _).
  destruct Hfr as (_&_&_&_&_&_&_&Hst'&_).
  split; [|exists self'; split; [exact Hu|congruence]].
  unfold _fit_func. rewrite (bind_positional_ok _ Hl). cbn [mbind result_bind].
  rewrite Hu. cbn [mbind result_bind]. by rewrite Hst', Hst.
Qed.

(** X5. No stars: on the object as [fit] prepares it from an empty list
    of stars, with a weight vector of two entries or more (the default has
    three), the evaluation of the objective that the search asks for raises
    ValueError, since the empty array of descriptors does not align with the
    weights; [fit] has no handler for it and ends with an exception instead
    of returning. *)
Theorem objective_on_no_stars_raises_ValueError
    (self : PSF) (w : Wcs) (p : Pointing) (chisq_threshold : F) (budget : nat)
    (skip_fit : bool) (logger : option (list log_record)) (xs : list F) :
  is_8x3 (misalignment (interp self)) ->
  (2 <= length (weights self))%nat ->
  migrad_next (minuit_kwargs self) [] = Some xs ->
  _fit_func (with_targets (set_inputs self [] w p) []) xs = Raise ValueError /\
  exists e, fit self [] w p chisq_threshold (S budget) skip_fit logger = Raise e.
Proof.
  intros H8 _ Hnext.
  pose proof (migrad_next_arity _ _ _ Hnext) as Hl.
  set (self0 := with_targets (set_inputs self [] w p) []).
  destruct (update_psf_params_installed self0 (list_to_map (zip param_names xs)) H8)
    as (self' & Hu & _ & Hfr & _).
  destruct Hfr as (_&_&_&_&_&_&_&Hst'&Hsh'&_).
  assert (Hf : _fit_func self0 xs = Raise ValueError).
  { unfold _fit_func. rewrite (bind_positional_ok _ Hl). cbn [mbind result_bind].
    rewrite Hu. cbn [mbind result_bind]. rewrite Hst', Hsh'. reflexivity. }
  split; [exact Hf|]. exists ValueError.
  unfold fit. change (set_targets (set_inputs self [] w p) (map comparer_fit [])
                        (map fit_params (map comparer_fit []))) with self0.
  change (minuit_kwargs self0) with (minuit_kwargs self).
  cbn [migrad]. rewrite Hnext, Hf. reflexivity.
Qed.
End LifeCycle.

Section Construction.
Context {F : Type} {num : PyNum F} {Star Wcs Pointing : Type}.
Context {col : Collaborators F Star} {opt : Minuit F}.
Abbreviation PSF := (DECamWavefrontPSF F Star Wcs Pointing).

(** Unpacking a dictionary into keyword arguments binds the entries named
    after the parameters, and nothing else. *)
Lemma bind_kwargs_names (d : gmap string (pyval F)) (a : gmap string F) :
  bind_kwargs d = Ok a ->
  forall name,
    a !! name = if decide (name ∈ param_names) then d !! name ≫= to_num (F := F) else None.
Proof.
  unfold bind_kwargs. generalize param_names. intros l. revert a.
  induction l as [|n l IH]; intros a; simpl.
  - intros [= <-] name. rewrite lookup_empty.
    destruct (decide (name ∈ [])) as [Hin|]; [by apply elem_of_nil in Hin|reflexivity].
  - destruct (foldr _ _ l) as [a'|]; [|discriminate]. cbn [mbind result_bind].
    specialize (IH a' eq_refl).
    destruct (d !! n) as [v|] eqn:Hd.
    + destruct (to_num v) as [x|] eqn:Hv; [|discriminate].
      intros [= <-] name. destruct (decide (name = n)) as [->|Hne].
      * rewrite lookup_insert_eq, decide_True by (left). rewrite Hd. simpl. by rewrite Hv.
      * rewrite lookup_insert_ne by congruence. rewrite IH.
        destruct (decide (name ∈ l)) as [Hin|Hin].
        -- by rewrite decide_True by (by right).
        -- rewrite decide_False; [reflexivity|].
           intros Hc. apply elem_of_cons in Hc. by destruct Hc.
    + intros [= <-] name. rewrite IH.
      destruct (decide (name = n)) as [->|Hne].
      * rewrite (decide_True (P := n ∈ n :: l)) by left. rewrite Hd.
        by destruct (decide (n ∈ l)).
      * destruct (decide (name ∈ l)) as [Hin|Hin].
        -- by rewrite decide_True by (by right).
        -- rewrite decide_False; [reflexivity|].
           intros Hc. apply elem_of_cons in Hc. by destruct Hc.
Qed.

Lemma bind_kwargs_arg (d : gmap string (pyval F)) (a : gmap string F) (name : string) :
  bind_kwargs d = Ok a -> name ∈ param_names ->
  arg a name = default fnan (d !! name ≫= to_num (F := F)).
Proof.
  intros Hb Hin. unfold arg. rewrite (bind_kwargs_names d a Hb).
  by rewrite decide_True.
Qed.

Lemma bind_kwargs_ok (d : gmap string (pyval F)) :
  (forall name v, name ∈ param_names -> d !! name = Some v -> is_Some (to_num v)) ->
  exists a, bind_kwargs d = Ok a.
Proof.
  unfold bind_kwargs. generalize param_names. intros l.
  induction l as [|n l IH]; intros Hd; simpl; [by eexists|].
  destruct IH as [a' Ha'].
  { intros name v Hn. apply Hd. by right. }
  rewrite Ha'. cbn [mbind result_bind].
  destruct (d !! n) as [v|] eqn:Hn; [|by eexists].
  destruct (Hd n v ltac:(left) Hn) as [x ->]. by eexists.
Qed.

(** What the dict display holds for the 27 parameters. *)
Lemma literal_parameters (name : string) :
  name ∈ param_names ->
  (dict_of_literal minuit_kwargs_literal : gmap string (pyval F)) !! name
  = Some (default_parameter name).
Proof.
  intros Hin. unfold param_names in Hin.
  repeat (apply elem_of_cons in Hin; destruct Hin as [->|Hin]);
    [ .. | by apply elem_of_nil in Hin ]; vm_compute; reflexivity.
Qed.

(** What the constructor has installed when it returns. *)
Lemma init_installed (interp0 : DECamWavefront F) (model0 : Optical F)
    (extra : option (list string)) (w : list F) (kw : gmap string (pyval F)) (self : PSF)
    (name : string) (x : F) :
  __init__ interp0 model0 extra w kw = Ok self ->
  name ∈ param_names ->
  dict_update (dict_of_literal minuit_kwargs_literal) kw !! name ≫= to_num (F := F) = Some x ->
  x <> fnan ->
  installed self name = Some x.
Proof.
  unfold __init__. destruct (bind_kwargs _) as [a|] eqn:Hb; [|discriminate].
  cbn [mbind result_bind]. intros Hu Hn Hx Hnan.
  destruct (update_psf_params_shape _ _ _ Hu) as [H8 _].
  destruct (update_psf_params_installed _ a H8) as (self' & Hu' & _ & _ & Hin).
  rewrite Hu in Hu'. injection Hu' as <-.
  rewrite (Hin name Hn), (bind_kwargs_arg _ _ _ Hb Hn), Hx. simpl.
  by rewrite (feqb_refl _ Hnan).
Qed.

Lemma init_ok (interp0 : DECamWavefront F) (model0 : Optical F)
    (extra : option (list string)) (w : list F) (kw : gmap string (pyval F)) :
  is_8x3 (misalignment interp0) ->
  (forall name v, name ∈ param_names -> kw !! name = Some v -> is_Some (to_num v)) ->
  exists self : PSF, __init__ interp0 model0 extra w kw = Ok self.
Proof.
  intros H8 Hkw. unfold __init__.
  destruct (bind_kwargs_ok (dict_update (dict_of_literal minuit_kwargs_literal) kw))
    as [a Ha].
  { intros name v Hn. unfold dict_update. rewrite lookup_union.
    destruct (kw !! name) as [v'|] eqn:Hk.
    - rewrite (literal_parameters name Hn). simpl. intros [= <-]. by apply (Hkw name).
    - rewrite (literal_parameters name Hn). simpl. intros [= <-].
      unfold default_parameter. destruct (decide (name = "r0")); by eexists. }
  rewrite Ha. cbn [mbind result_bind].
  match goal with |- context [update_psf_params ?s a] =>
    destruct (update_psf_params_installed s a H8) as (self & Hu & _) end.
  by exists self.
Qed.

(** X6. The constructor installs the configuration: on an 8 by 3
    misalignment, and when the entries of the argument [minuit_kwargs] that
    are named after a parameter are numbers, [__init__] returns, and for
    each of the 27 parameters the number configured for it, the caller's
    entry where there is one and the default of the dict display otherwise
    (0.1 for r0, 0 for the others), is installed in place of what the
    optical model and the wavefront interpolator were built with, provided
    it is not NaN. Entries that name no parameter install nothing. *)
Theorem constructor_installs_configured_parameters
    (interp0 : DECamWavefront F) (model0 : Optical F)
    (extra : option (list string)) (w : list F) (kw : gmap string (pyval F)) :
  is_8x3 (misalignment interp0) ->
  (forall name v, name ∈ param_names -> kw !! name = Some v -> is_Some (to_num v)) ->
  exists self : PSF,
    __init__ interp0 model0 extra w kw = Ok self /\
    forall name x, name ∈ param_names ->
      to_num (default (default_parameter name) (kw !! name)) = Some x -> x <> fnan ->
      installed self name = Some x.
Proof.
  intros H8 Hkw. destruct (init_ok interp0 model0 extra w kw H8 Hkw) as [self Hinit].
  exists self. split; [exact Hinit|]. intros name x Hn Hx Hnan.
  apply (init_installed _ _ _ _ _ _ _ _ Hinit Hn); [|exact Hnan].
  unfold dict_update. rewrite lookup_union, (literal_parameters name Hn).
  destruct (kw !! name) as [v|]; exact Hx.
Qed.

Lemma fit_func_frame (self self' : PSF) (xs : list F) (v : F) :
  _fit_func self xs = Ok (v, self') -> same_frame self self'.
Proof.
  unfold _fit_func. destruct (bind_positional xs) as [a|]; [|discriminate].
  cbn [mbind result_bind].
  destruct (update_psf_params self a) as [s|] eqn:Hu; [|discriminate].
  cbn [mbind result_bind]. destruct (getattr (_stars s)); [|discriminate].
  cbn [mbind result_bind]. destruct (getattr (_shapes s)); [|discriminate].
  cbn [mbind result_bind]. destruct (np_zip2 _ _ _); [|discriminate].
  cbn [mbind result_bind]. destruct (np_mul_rows _ _); [|discriminate].
  cbn [mbind result_bind]. intros [= _ <-].
  exact (update_psf_params_frame _ _ _ Hu).
Qed.

Lemma migrad_frame (kw : gmap string (pyval F)) (ncall : nat) :
  forall (seen : list (list F * F)) (self self' : PSF) (run : MinuitRun F),
    migrad kw ncall seen self = Ok (run, self') ->
    same_frame self self' /\
    values run = minuit_values kw (calls run) /\ fitarg run = minuit_fitarg kw (calls run).
Proof.
  induction ncall as [|n IH]; intros seen self self' run; simpl;
    destruct (migrad_next kw seen) as [xs|];
    try (by intros [= <- <-]; split; [apply same_frame_refl|split]).
  destruct (_fit_func self xs) as [[v s]|] eqn:Hf; [|discriminate].
  cbn [mbind result_bind fst snd]. intros Hm.
  destruct (IH _ _ _ _ Hm) as (Hfr & Hv). split; [|exact Hv].
  exact (same_frame_trans _ _ _ (fit_func_frame _ _ _ _ Hf) Hfr).
Qed.

(** What a call of [fit] that returns has recorded on the object. *)
Lemma fit_records (self self' : PSF) (obs : list Star) (w : Wcs) (p : Pointing)
    (chisq_threshold : F) (max_iterations : nat) (skip_fit : bool)
    (logger logger' : option (list log_record)) (r : pyval F) :
  fit self obs w p chisq_threshold max_iterations skip_fit logger = Ok (r, self', logger') ->
  exists run t u,
    migrad (minuit_kwargs self) max_iterations []
      (with_targets (set_inputs self obs w p) obs) = Ok (run, t) /\
    update_psf_params (set_fitarg (set_minuit t run) (fitarg run)) (values run) = Ok u /\
    self' = set_kwargs_minuit u (dict_update (kwargs_minuit self) (fitarg run)) /\
    r = PyNone /\ logger' = opening_log logger (length obs) /\
    same_frame (with_targets (set_inputs self obs w p) obs) t /\
    same_frame (set_fitarg (set_minuit t run) (fitarg run)) u.
Proof.
  unfold fit.
  change (set_targets (set_inputs self obs w p) (map comparer_fit obs)
            (map fit_params (map comparer_fit obs)))
    with (with_targets (set_inputs self obs w p) obs).
  change (minuit_kwargs (with_targets (set_inputs self obs w p) obs))
    with (minuit_kwargs self).
  destruct (migrad _ _ _ _) as [[run t]|] eqn:Hm; [|discriminate].
  cbn [mbind result_bind fst snd].
  destruct (update_psf_params _ _) as [u|] eqn:Hu; [|discriminate].
  cbn [mbind result_bind]. intros [= <- <- <-].
  pose proof (proj1 (migrad_frame _ _ _ _ _ _ Hm)) as Hfr.
  pose proof (update_psf_params_frame _ _ _ Hu) as Hfr2.
  exists run, t, u. split; [reflexivity|]. split; [exact Hu|].
  split; [|split; [reflexivity|split; [reflexivity|split; assumption]]].
  f_equal. f_equal.
  destruct Hfr2 as (_&_&->&_). simpl. by destruct Hfr as (_&_&->&_).
Qed.

(** X7. The default of [minuit_kwargs] is one dict shared by all the
    objects built without that argument, and [fit] writes into it: after a
    fit of one such object the shared dict holds Minuit's [fitarg] on top of
    what it held, and an object constructed by default afterwards takes its
    configuration from there: its [minuit_kwargs] are the display updated
    with the first object's fit results, and every parameter for which
    [fitarg] holds a number other than NaN is installed at construction with
    that number instead of its default. *)
Theorem default_minuit_kwargs_carry_fit_results_to_later_objects
    (shared : gmap string (pyval F))
    (interp1 : DECamWavefront F) (model1 : Optical F) (extra1 : option (list string))
    (w1 : list F) (psf1 psf1' : PSF) (obs : list Star) (w : Wcs) (p : Pointing)
    (chisq_threshold : F) (max_iterations : nat) (skip_fit : bool)
    (logger : option (list log_record)) (shared' : gmap string (pyval F)) :
  init_by_default shared interp1 model1 extra1 w1 = Ok psf1 ->
  fit_by_default psf1 obs w p chisq_threshold max_iterations skip_fit logger
    = Ok (psf1', shared') ->
  exists run,
    _minuit psf1' = Some run /\
    shared' = dict_update shared (fitarg run) /\
    forall (interp2 : DECamWavefront F) (model2 : Optical F) (extra2 : option (list string))
           (w2 : list F) (psf2 : PSF),
      init_by_default shared' interp2 model2 extra2 w2 = Ok psf2 ->
      minuit_kwargs psf2
        = dict_update (dict_of_literal minuit_kwargs_literal)
            (dict_update shared (fitarg run)) /\
      forall name v x, name ∈ param_names ->
        fitarg run !! name = Some v -> to_num v = Some x -> x <> fnan ->
        installed psf2 name = Some x.
Proof.
  unfold init_by_default, fit_by_default. intros Hinit Hfit.
  destruct (fit psf1 obs w p chisq_threshold max_iterations skip_fit logger)
    as [[[r s] lg]|] eqn:Hf; [|discriminate].
  cbn [mbind result_bind fst snd] in Hfit. injection Hfit as <- <-.
  destruct (fit_records _ _ _ _ _ _ _ _ _ _ _ Hf)
    as (run & t & u & _ & _ & -> & _ & _ & _ & Hfr).
  destruct (init_fresh _ _ _ _ _ _ Hinit) as (_ & Hkm & _).
  exists run. split; [|split].
  - simpl. by destruct Hfr as (_&_&_&_&_&_&_&_&_&->&_).
  - simpl. by rewrite Hkm.
  - intros interp2 model2 extra2 w2 psf2 Hinit2. simpl in Hinit2. rewrite Hkm in Hinit2.
    split; [exact (proj2 (init_weights _ _ _ _ _ _ Hinit2))|].
    intros name v x Hn Hv Hx Hnan.
    apply (init_installed _ _ _ _ _ _ _ _ Hinit2 Hn); [|exact Hnan].
    unfold dict_update. rewrite !lookup_union, Hv.
    destruct (shared !! name), (dict_of_literal minuit_kwargs_literal !! name); exact Hx.
Qed.
End Construction.

Section Refit.
Context {F : Type} {num : PyNum F} {Star Wcs Pointing : Type}.
Context {col : Collaborators F Star} {opt : Minuit F}.
Abbreviation PSF := (DECamWavefrontPSF F Star Wcs Pointing).

Lemma psf_ext (s t : PSF) :
  interp s = interp t -> model s = model t -> same_frame s t -> s = t.
Proof.
  destruct s, t. unfold same_frame. simpl.
  intros -> -> (->&->&->&->&->&->&->&->&->&->&->). reflexivity.
Qed.

Lemma dict_update_twice {V : Type} (d f : gmap string V) :
  dict_update (dict_update d f) f = dict_update d f.
Proof.
  unfold dict_update. apply map_eq. intros i. rewrite !lookup_union.
  by destruct (f !! i), (d !! i).
Qed.

(** [update_psf_params] writes into the optical settings at r0 only. *)
Lemma update_psf_params_other_settings (self self' : PSF) (a : gmap string F) :
  update_psf_params self a = Ok self' ->
  delete "r0" (kolmogorov_kwargs (model self'))
  = delete "r0" (kolmogorov_kwargs (model self)).
Proof.
  unfold update_psf_params.
  destruct (np_where _ _ _) as [r|]; [|discriminate].
  cbn [mbind result_bind]. intros [= <-]. cbn [model set_interp set_model].
  destruct (feqb (arg a "r0") (arg a "r0")), (feqb (arg a "g1") (arg a "g1")),
    (feqb (arg a "g2") (arg a "g2")); cbn [kolmogorov_kwargs];
    rewrite ?delete_insert_eq; reflexivity.
Qed.

Lemma fit_func_update (self self' : PSF) (xs : list F) (v : F) :
  _fit_func self xs = Ok (v, self') ->
  length xs = length param_names /\
  update_psf_params self (list_to_map (zip param_names xs)) = Ok self'.
Proof.
  unfold _fit_func, bind_positional.
  destruct (decide (length xs = length param_names)) as [Hl|]; [|discriminate].
  cbn [mbind result_bind].
  destruct (update_psf_params self _) as [s|] eqn:Hu; [|discriminate].
  cbn [mbind result_bind]. destruct (getattr (_stars s)); [|discriminate].
  cbn [mbind result_bind]. destruct (getattr (_shapes s)); [|discriminate].
  cbn [mbind result_bind]. destruct (np_zip2 _ _ _); [|discriminate].
  cbn [mbind result_bind]. destruct (np_mul_rows _ _); [|discriminate].
  cbn [mbind result_bind]. intros [= _ <-]. by split.
Qed.

(** The search leaves the optical settings other than r0 alone, and if it
    ends on an 8 by 3 misalignment it started on one. *)
Lemma migrad_other_settings (kw : gmap string (pyval F)) (ncall : nat) :
  forall (seen : list (list F * F)) (self self' : PSF) (run : MinuitRun F),
    migrad kw ncall seen self = Ok (run, self') ->
    delete "r0" (kolmogorov_kwargs (model self'))
    = delete "r0" (kolmogorov_kwargs (model self)) /\
    (is_8x3 (misalignment (interp self')) -> is_8x3 (misalignment (interp self))).
Proof.
  induction ncall as [|n IH]; intros seen self self' run; simpl;
    destruct (migrad_next kw seen) as [xs|]; try (by intros [= _ <-]).
  destruct (_fit_func self xs) as [[v s]|] eqn:Hf; [|discriminate].
  cbn [mbind result_bind fst snd]. intros Hm.
  destruct (IH _ _ _ _ Hm) as [Hk _].
  destruct (fit_func_update _ _ _ _ Hf) as [_ Hu].
  split.
  - rewrite Hk. exact (update_psf_params_other_settings _ _ _ Hu).
  - intros _. exact (proj1 (update_psf_params_shape _ _ _ Hu)).
Qed.

(** A search whose probes are never NaN runs the same way on two objects
    that differ in the installed parameters only. *)
Lemma migrad_forgets (kw : gmap string (pyval F)) (ncall : nat) :
  (forall kw seen xs, migrad_next kw seen = Some xs -> Forall (fun x => x <> fnan) xs) ->
  forall (seen : list (list F * F)) (s1 s2 t1 : PSF) (run : MinuitRun F),
    same_objective s1 s2 ->
    migrad kw ncall seen s1 = Ok (run, t1) ->
    exists t2, migrad kw ncall seen s2 = Ok (run, t2) /\
      ((t1 = s1 /\ t2 = s2) \/ (interp t1 = interp t2 /\ model t1 = model t2)).
Proof.
  intros Hprobe. induction ncall as [|n IH]; intros seen s1 s2 t1 run Hso; simpl;
    destruct (migrad_next kw seen) as [xs|] eqn:Hnext;
    try (by intros [= <- <-]; exists s2; split; [reflexivity|left]).
  pose proof (migrad_next_arity _ _ _ Hnext) as Hl.
  destruct (fit_func_forgets s1 s2 xs Hso Hl (Hprobe _ _ _ Hnext))
    as (u1 & u2 & Hi & Hm & Hso' & [(v & -> & ->)|(e & -> & _)]); [|discriminate].
  cbn [mbind result_bind fst snd]. intros Hmig.
  destruct (IH _ u1 u2 t1 run Hso' Hmig) as (t2 & Hmig2 & Hcase).
  exists t2. split; [exact Hmig2|]. right.
  destruct Hcase as [[-> ->]|Hcase]; [by split|exact Hcase].
Qed.

(** X8. [fit] does not start from where the last fit ended: the search is
    configured from [minuit_kwargs], which [fit] never assigns (the results
    go to [kwargs['minuit']] only). With a search that is a function of its
    configuration and of the values it has seen, and that never probes NaN,
    a second call of [fit] on the fitted object with the same stars repeats
    the first search call for call and returns the object exactly as the
    first call left it. *)
Theorem refit_repeats_the_search_and_changes_nothing
    (self self' : PSF) (obs : list Star) (w : Wcs) (p : Pointing)
    (chisq_threshold : F) (max_iterations : nat) (skip_fit : bool)
    (logger logger' : option (list log_record)) (r : pyval F) :
  (forall kw seen xs, migrad_next kw seen = Some xs -> Forall (fun x => x <> fnan) xs) ->
  fit self obs w p chisq_threshold max_iterations skip_fit logger = Ok (r, self', logger') ->
  minuit_kwargs self' = minuit_kwargs self /\
  forall (chisq_threshold2 : F) (skip_fit2 : bool) (logger2 : option (list log_record)),
    fit self' obs w p chisq_threshold2 max_iterations skip_fit2 logger2
    = Ok (PyNone, self', opening_log logger2 (length obs)).
Proof.
  intros Hprobe Hfit.
  destruct (fit_records _ _ _ _ _ _ _ _ _ _ _ Hfit)
    as (run & t & u & Hm & Hu & -> & _ & _ & Hfr & Hfr2).
  set (A0 := with_targets (set_inputs self obs w p) obs) in *.
  set (self' := set_kwargs_minuit u (dict_update (kwargs_minuit self) (fitarg run))) in *.
  set (B0 := with_targets (set_inputs self' obs w p) obs).
  destruct (update_psf_params_shape _ _ _ Hu) as [H8t H8u].
  destruct (migrad_other_settings _ _ _ _ _ _ Hm) as [Hkt H8back].
  pose proof (update_psf_params_other_settings _ _ _ Hu) as Hku.
  assert (Hmk : minuit_kwargs self' = minuit_kwargs self).
  { destruct Hfr as (_&_&_&Hmk1&_), Hfr2 as (_&_&_&Hmk2&_).
    subst self'. simpl in *. congruence. }
  split; [exact Hmk|]. intros chisq_threshold2 skip_fit2 logger2.
  assert (Hso : same_objective A0 B0).
  { destruct Hfr as (Hw1&_), Hfr2 as (Hw2&_). unfold same_objective.
    subst A0 B0 self'. simpl in *. repeat split.
    - congruence.
    - rewrite Hku. exact (eq_sym Hkt).
    - exact (H8back H8t).
    - exact H8u. }
  destruct (migrad_forgets _ _ Hprobe _ _ _ _ _ Hso Hm) as (t2 & Hm2 & Hcase).
  destruct (migrad_frame _ _ _ _ _ _ Hm2) as (Hfr3 & _).
  assert (Hu2 : exists u2,
             update_psf_params (set_fitarg (set_minuit t2 run) (fitarg run)) (values run)
             = Ok u2 /\ interp u2 = interp u /\ model u2 = model u).
  { destruct Hcase as [[-> ->]|[Hi Hmo]].
    - destruct (update_psf_params_installed
                  (set_fitarg (set_minuit B0 run) (fitarg run)) (values run) H8u)
        as (u2 & Hu2 & _).
      exists u2. split; [exact Hu2|].
      exact (update_psf_params_local
               (set_fitarg (set_minuit B0 run) (fitarg run)) u _ _ _ eq_refl eq_refl Hu2
               (update_psf_params_idem _ _ _ Hu)).
    - assert (H8t2 : is_8x3 (misalignment (interp t2))) by (by rewrite <- Hi).
      destruct (update_psf_params_installed
                  (set_fitarg (set_minuit t2 run) (fitarg run)) (values run) H8t2)
        as (u2 & Hu2 & _).
      exists u2. split; [exact Hu2|].
      refine (update_psf_params_local
                (set_fitarg (set_minuit t2 run) (fitarg run))
                (set_fitarg (set_minuit t run) (fitarg run))
                _ _ _ _ _ Hu2 Hu); simpl; congruence. }
  destruct Hu2 as (u2 & Hu2 & Hi2 & Hmo2).
  pose proof (update_psf_params_frame _ _ _ Hu2) as Hfr4.
  unfold fit.
  change (set_targets (set_inputs self' obs w p) (map comparer_fit obs)
            (map fit_params (map comparer_fit obs))) with B0.
  change (minuit_kwargs B0) with (minuit_kwargs self'). rewrite Hmk, Hm2.
  cbn [mbind result_bind fst snd]. rewrite Hu2. cbn [mbind result_bind].
  f_equal. f_equal. f_equal. apply psf_ext.
  - exact Hi2.
  - exact Hmo2.
  - destruct Hfr as (?&?&?&?&?&?&?&?&?&?&?), Hfr2 as (?&?&?&?&?&?&?&?&?&?&?),
      Hfr3 as (?&?&?&?&?&?&?&?&?&?&?), Hfr4 as (?&?&?&?&?&?&?&?&?&?&?).
    unfold same_frame. subst A0 B0 self'. simpl in *.
    repeat split; try congruence.
    replace (kwargs_minuit u2) with (dict_update (kwargs_minuit self) (fitarg run))
      by congruence.
    symmetry. apply dict_update_twice.
Qed.
End Refit.

(** ** Iterative mode: the first pass, and chi-squares that are NaN *)

Section FirstPass.
Context {F : Type} {num : PyNum F} {Star Interp : Type} {env : IterativeEnv F Star Interp}.

Lemma fltb_irrefl (a : F) : fltb a a = false.
Proof.
  destruct (fltb a a) eqn:E; [|reflexivity].
  pose proof (fltb_asym _ _ E). congruence.
Qed.

(** X9. [iterate] never stops after its first pass: the previous
    chi-square of the first pass is 0, which is not positive, so the test
    fails there whatever the stars are. A call that gets past its opening
    division makes at least two passes (and at most ten). *)
Theorem iterate_makes_at_least_two_passes (stars : list Star) (interp : Interp) :
  match iterate stars interp with
  | Raise e => sum_dof stars = 0
  | Ok (trace, _) =>
      (2 <= length trace <= 10)%nat /\
      forall it, head trace = Some it -> converged it = false
  end.
Proof.
  unfold iterate. destruct (decide (sum_dof stars = 0)) as [Hz|Hz]; [exact Hz|].
  pose proof (iterate_loop_spec 10 stars interp fzero) as Hspec. cbv zeta in Hspec.
  destruct (iterate_loop 10 stars interp fzero) as [trace r]. cbn [fst] in Hspec.
  destruct Hspec as (Hl & Hne & Hhd & _ & _ & Hlast).
  assert (Hfirst : forall it, head trace = Some it -> converged it = false).
  { intros it Hit. unfold converged. by rewrite (Hhd it Hit), fltb_irrefl. }
  split; [|exact Hfirst]. split; [|exact Hl].
  destruct trace as [|it [|it' trace]]; [by exfalso; apply Hne| |simpl; lia].
  exfalso. specialize (Hfirst it eq_refl).
  rewrite (Hlast 0%nat it eq_refl eq_refl) in Hfirst by lia. discriminate.
Qed.
End FirstPass.

Section NaNChiSquare.
Context {Star Interp : Type} {env : IterativeEnv float Star Interp}.

Lemma float_ltb_nan_r (x : float) : PrimFloat.ltb x nan = false.
Proof.
  rewrite FloatAxioms.ltb_spec. change (Prim2SF nan) with S754_nan.
  unfold SFltb. by destruct (Prim2SF x).
Qed.

Lemma float_ltb_nan_l (x : float) : PrimFloat.ltb nan x = false.
Proof.
  rewrite FloatAxioms.ltb_spec. change (Prim2SF nan) with S754_nan. reflexivity.
Qed.

Lemma float_sub_nan_r (x : float) : PrimFloat.sub x nan = nan.
Proof.
  rewrite <- (SF2Prim_Prim2SF (x - nan)), FloatAxioms.sub_spec.
  change (Prim2SF nan) with S754_nan. unfold SF64sub, SFsub.
  by destruct (Prim2SF x).
Qed.

(** In binary64 the test of the loop fails as soon as one of the two
    chi-squares it compares is NaN. *)
Lemma converged_nan (it : iteration (F := float)) :
  oldchisq it = nan \/ chisq it = nan -> converged it = false.
Proof.
  unfold converged. cbn [fltb fabs fsub binary64]. intros [-> | ->].
  - by rewrite float_ltb_nan_r.
  - rewrite float_sub_nan_r. change (PrimFloat.abs nan) with nan.
    rewrite float_ltb_nan_l. apply andb_false_r.
Qed.

(** X10. In binary64 a chi-square that is NaN is never taken for
    convergence: if the chi-square of a pass of [iterate] is NaN, the loop
    ends neither on that pass nor on the next one, unless that is the tenth
    pass. *)
Theorem iterate_does_not_converge_on_nan (stars : list Star) (interp : Interp) :
  match iterate (F := float) stars interp with
  | Raise e => sum_dof stars = 0
  | Ok (trace, _) =>
      forall k it, trace !! k = Some it -> chisq it = nan ->
        converged it = false /\
        (forall it', trace !! S k = Some it' -> converged it' = false) /\
        (length trace = 10%nat \/ (k + 3 <= length trace)%nat)
  end.
Proof.
  unfold iterate. destruct (decide (sum_dof stars = 0)) as [Hz|Hz]; [exact Hz|].
  pose proof (iterate_loop_spec 10 stars interp fzero) as Hspec. cbv zeta in Hspec.
  destruct (iterate_loop 10 stars interp fzero) as [trace r]. cbn [fst] in Hspec.
  destruct Hspec as (Hl & Hne & Hhd & Hstep & _ & Hlast).
  intros k it Hk Hnan.
  assert (Hit : converged it = false) by (apply converged_nan; by right).
  assert (Hnext : forall it', trace !! S k = Some it' -> converged it' = false).
  { intros it' Hk'. apply converged_nan. left.
    rewrite (proj2 (Hstep k it it' Hk Hk')). exact Hnan. }
  split; [exact Hit|]. split; [exact Hnext|].
  pose proof (lookup_lt_Some _ _ _ Hk) as Hlt.
  destruct (decide (length trace = 10%nat)) as [|Hcap]; [by left|right].
  destruct (decide (S k = length trace)) as [Hend|Hmore].
  { rewrite (Hlast k it Hk Hend) in Hit by lia. discriminate. }
  destruct (lookup_lt_is_Some_2 trace (S k)) as [it' Hk']; [lia|].
  destruct (decide (S (S k) = length trace)) as [Hend'|Hmore'].
  { specialize (Hnext it' Hk').
    rewrite (Hlast (S k) it' Hk' Hend') in Hnext by lia. discriminate. }
  pose proof (lookup_lt_Some _ _ _ Hk'). lia.
Qed.
End NaNChiSquare.

Section ZeroSumWeights.
Context {Star Wcs Pointing : Type}.

Lemma float_div_zero (x s : float) :
  PrimFloat.eqb s 0 = true -> non_finite (x / s).
Proof.
  rewrite FloatAxioms.eqb_spec. change (Prim2SF 0) with (S754_zero false).
  intros Hs.
  assert (Hz : exists b, Prim2SF s = S754_zero b).
  { revert Hs. unfold SFeqb. destruct (Prim2SF s) as [b|b| |b m e]; simpl.
    - by exists b.
    - by destruct b.
    - discriminate.
    - by destruct b. }
  destruct Hz as [b Hz]. unfold non_finite.
  rewrite <- (SF2Prim_Prim2SF (x / s)), FloatAxioms.div_spec, Hz.
  unfold SF64div, SFdiv.
  destruct (Prim2SF x) as [sx|sx| |sx mx ex]; try (by left);
    destruct sx, b; simpl; auto.
Qed.

Lemma float_div_zero_all (l : list float) (s : float) :
  PrimFloat.eqb s 0 = true -> Forall non_finite (map (fun x => fdiv x s) l).
Proof.
  intros Hs. induction l as [|x l IH]; constructor; [by apply float_div_zero|exact IH].
Qed.

(** X11. The constructor does not check the weights. In binary64, when
    the weights sum to zero (the empty vector included) the division that
    normalizes them raises nothing: the constructor returns as it does for
    any other weights, and every weight it stores is NaN or an infinity. *)
Theorem zero_sum_weights_are_stored_non_finite
    (interp0 : DECamWavefront float) (model0 : Optical float)
    (extra : option (list string)) (w w0 : list float) (kw : gmap string (pyval float))
    (self0 : DECamWavefrontPSF float Star Wcs Pointing) :
  __init__ interp0 model0 extra w0 kw = Ok self0 ->
  PrimFloat.eqb (np_sum w) 0 = true ->
  exists self : DECamWavefrontPSF float Star Wcs Pointing,
    __init__ interp0 model0 extra w kw = Ok self /\
    length (weights self) = length w /\
    Forall non_finite (weights self).
Proof.
  intros Hinit Hsum. revert Hinit. unfold __init__.
  destruct (bind_kwargs _) as [a|]; [|discriminate]. cbn [mbind result_bind].
  intros Hu. destruct (update_psf_params_shape _ _ _ Hu) as [H8 _].
  match goal with |- context [update_psf_params ?s a] =>
    destruct (update_psf_params_installed s a H8) as (self & Hu' & _ & Hfr & _) end.
  exists self. split; [exact Hu'|]. destruct Hfr as (-> & _). simpl.
  split; [by rewrite length_map|].
  exact (float_div_zero_all w _ Hsum).
Qed.
End ZeroSumWeights.

(** ** Further concrete runs on the bench *)

Lemma origin_not_nan : Forall (fun x : float => x <> fnan) origin.
Proof. repeat constructor; apply float_neq; vm_compute; reflexivity. Qed.

Lemma unit_point_not_nan : Forall (fun x : float => x <> fnan) unit_point.
Proof. repeat constructor; apply float_neq; vm_compute; reflexivity. Qed.

(** A scripted search probes the points of its script only. *)
Lemma scripted_probes {F : Type} {num : PyNum F} (script : list (list F)) :
  Forall (Forall (fun x => x <> fnan)) script ->
  forall kw seen xs,
    migrad_next (Minuit := scripted script) kw seen = Some xs ->
    Forall (fun x => x <> fnan) xs.
Proof.
  intros Hs kw seen xs. cbn [migrad_next scripted]. unfold scripted_next.
  destruct (script !! length seen) as [ys|] eqn:Hy; [|discriminate].
  destruct (decide _); [|discriminate]. intros [= <-].
  rewrite Forall_forall in Hs. apply Hs. by eapply list_elem_of_lookup_2.
Qed.

(** A call that passes z05x, then a call that passes g1. *)
Lemma update_psf_params_calls_compose_witness :
  exists s1 s2 : DECamWavefrontPSF float (float * float * float) unit unit,
    update_psf_params bench_psf {[ "z05x" := dec 25 100 ]} = Ok s1 /\
    update_psf_params s1 {[ "g1" := dec 5 100 ]} = Ok s2 /\
    update_psf_params bench_psf
      (later_wins {[ "z05x" := dec 25 100 ]} {[ "g1" := dec 5 100 ]}) = Ok s2.
Proof.
  exact (update_psf_params_calls_compose (bench_psf (F := float))
           {[ "z05x" := dec 25 100 ]} {[ "g1" := dec 5 100 ]} eq_refl).
Defined.

(** A call without arguments. *)
Lemma update_psf_params_noop_and_idempotent_witness :
  update_psf_params
    (bench_psf : DECamWavefrontPSF float (float * float * float) unit unit) ∅
  = Ok bench_psf.
Proof.
  apply (proj1 (update_psf_params_noop_and_idempotent (bench_psf (F := float)) eq_refl)).
  intros name _. apply arg_empty.
Defined.

(** The objective at the origin, on the default object and on the same
    object with another optical model installed. *)
Lemma objective_ignores_previously_installed_parameters_witness :
  match _fit_func (col := bench) (with_targets (col := bench) bench_psf [star_a; star_b])
          (origin (F := float)),
        _fit_func (col := bench)
          (set_model (with_targets (col := bench) bench_psf [star_a; star_b]) bare_model)
          origin with
  | Ok (v1, u1), Ok (v2, u2) => v1 = v2 /\ interp u1 = interp u2 /\ model u1 = model u2
  | Raise e1, Raise e2 => e1 = e2
  | _, _ => False
  end.
Proof.
  apply (objective_ignores_previously_installed_parameters (col := bench)).
  - repeat split; vm_compute; reflexivity.
  - reflexivity.
  - exact origin_not_nan.
Defined.

(** The objective on the object that the constructor returns for the
    default arguments. *)
Lemma objective_before_fit_raises_AttributeError_witness :
  _fit_func (col := bench) (bench_psf (F := float)) origin = Raise AttributeError.
Proof.
  exact (proj1 (objective_before_fit_raises_AttributeError (col := bench)
                  flat_interp bare_model None default_weights ∅ bench_psf origin
                  init_default_binary64 eq_refl)).
Defined.

(** A construction that configures g1 and leaves r0 at its default. *)
Lemma constructor_installs_configured_parameters_witness :
  exists self : DECamWavefrontPSF float (float * float * float) unit unit,
    __init__ flat_interp bare_model None default_weights {[ "g1" := PyFloat (dec 5 100) ]}
      = Ok self /\
    installed self "g1" = Some (dec 5 100) /\
    installed self "r0" = Some (dec 1 10).
Proof.
  destruct (constructor_installs_configured_parameters
              (F := float) (Star := float * float * float) (Wcs := unit) (Pointing := unit)
              flat_interp bare_model None default_weights {[ "g1" := PyFloat (dec 5 100) ]}
              eq_refl)
    as (self & Hinit & Hin).
  - intros name v _ Hv. destruct (decide (name = "g1")) as [->|Hne].
    + rewrite lookup_singleton_eq in Hv. injection Hv as <-. by eexists.
    + rewrite lookup_singleton_ne in Hv by congruence. discriminate.
  - exists self. split; [exact Hinit|]. split.
    + apply Hin; [unfold param_names; repeat constructor|reflexivity|].
      apply float_neq; vm_compute; reflexivity.
    + apply Hin; [unfold param_names; repeat constructor|reflexivity|].
      apply float_neq; vm_compute; reflexivity.
Defined.

(** A fit of two stars, and a second fit of the same stars. *)
Lemma refit_repeats_the_search_and_changes_nothing_witness :
  exists self' : DECamWavefrontPSF float (float * float * float) unit unit,
    fit (col := bench) (opt := scripted [origin; unit_point]) bench_psf [star_a; star_b]
      tt tt (dec 1 10) 300 false None = Ok (PyNone, self', None) /\
    fit (col := bench) (opt := scripted [origin; unit_point]) self' [star_a; star_b]
      tt tt (dec 1 10) 300 false None = Ok (PyNone, self', None).
Proof.
  destruct (fit_spec (col := bench) (opt := scripted [origin; unit_point])
              (bench_psf (F := float)) [star_a; star_b] tt tt (dec 1 10) 300 false None
              bench_psf_ready ltac:(discriminate))
    as (run & self1 & self' & _ & Hfit & _).
  exists self'. split; [exact Hfit|].
  refine (proj2 (refit_repeats_the_search_and_changes_nothing
                   (col := bench) (opt := scripted [origin; unit_point])
                   _ _ _ _ _ _ _ _ _ _ _ _ Hfit) (dec 1 10) false None).
  apply scripted_probes.
  repeat constructor; apply float_neq; vm_compute; reflexivity.
Defined.

(** The weights [1, -1]. *)
Lemma zero_sum_weights_are_stored_non_finite_witness :
  exists self : DECamWavefrontPSF float (float * float * float) unit unit,
    __init__ flat_interp bare_model None [fone; of_Z (-1)] ∅ = Ok self /\
    length (weights self) = 2%nat /\
    Forall non_finite (weights self).
Proof.
  apply (zero_sum_weights_are_stored_non_finite flat_interp bare_model None
           [fone; of_Z (-1)] default_weights ∅ bench_psf init_default_binary64).
  vm_compute. reflexivity.
Defined.

(** The objective with no star at all. *)
Lemma objective_on_no_stars_raises_ValueError_witness :
  _fit_func (col := bench)
    (with_targets (col := bench) (set_inputs (bench_psf (F := float)) [] tt tt) []) origin
  = Raise ValueError.
Proof.
  apply (objective_on_no_stars_raises_ValueError (col := bench) (opt := scripted [origin])
           (bench_psf (F := float)) tt tt (dec 1 10) 299 false None origin).
  - reflexivity.
  - simpl. lia.
  - reflexivity.
Defined.

(** An object built by default and fitted; the shared dict afterwards. *)
Lemma default_minuit_kwargs_carry_fit_results_witness :
  exists (psf1' : DECamWavefrontPSF float (float * float * float) unit unit)
         (run : MinuitRun float),
    fit_by_default (col := bench) (opt := scripted [origin; unit_point]) bench_psf
      [star_a; star_b] tt tt (dec 1 10) 300 false None
    = Ok (psf1', dict_update ∅ (fitarg run)) /\
    _minuit psf1' = Some run.
Proof.
  destruct (fit_spec (col := bench) (opt := scripted [origin; unit_point])
              (bench_psf (F := float)) [star_a; star_b] tt tt (dec 1 10) 300 false None
              bench_psf_ready ltac:(discriminate))
    as (run & self1 & self' & _ & Hfit & _ & _ & _ & Hkm & _).
  assert (Hfd : fit_by_default (col := bench) (opt := scripted [origin; unit_point])
                  bench_psf [star_a; star_b] tt tt (dec 1 10) 300 false None
                = Ok (self', kwargs_minuit self')).
  { unfold fit_by_default. by rewrite Hfit. }
  destruct (default_minuit_kwargs_carry_fit_results_to_later_objects
              (col := bench) (opt := scripted [origin; unit_point])
              ∅ flat_interp bare_model None default_weights bench_psf self'
              [star_a; star_b] tt tt (dec 1 10) 300 false None (kwargs_minuit self')
              init_default_binary64 Hfd)
    as (run' & Hmi & Hsh & _).
  exists self', run'. split; [|exact Hmi]. by rewrite <- Hsh.
Defined.
